(** * Event booking front-end: client-side state reconciliation

  Shallow embedding of the state-updating code of the React front-end:
  - [frontend/src/App.js]: the events list ([EventsList]), the event
    card ([EventCard]) and the payment form ([CheckoutForm]);
  - [frontend/src/components/NotificationBar.js]: the notification list;
  - [services/socketService.js]: the connection manager.

  React state is modelled by explicit state passing: a state setter
  called with an updater [prev => next] is the function [prev ↦ next];
  handlers that talk to the outside world (REST calls, the payment
  widget, the socket library) take the outside world's answers as
  arguments and log the calls they issue. *)

From Stdlib Require Import ZArith Lia.
From stdpp Require Import gmap strings list sorting pretty.

(** ** JavaScript values carried by REST responses and push events *)

Module Js.

(** The primitive values a JSON payload holds. Numbers are the integers
    the handlers compare (identifiers, seat counts, clock readings). *)
Inductive JsVal : Type :=
| JUndefined
| JNull
| JBool (b : bool)
| JNum (n : Z)
| JStr (s : string).

#[global] Instance JsVal_eq_dec : EqDecision JsVal.
Proof. solve_decision. Defined.

(** [a === b] on primitives. *)
Definition strict_eq (a b : JsVal) : bool := bool_decide (a = b).

(** A plain object: property name to value. *)
Abbreviation Obj := (gmap string JsVal).

(** [o.k]: reading an absent property gives [undefined]. *)
Definition prop (o : Obj) (k : string) : JsVal := default JUndefined (o !! k).

(** [{ ...o, k: v }] *)
Definition spread_with (o : Obj) (k : string) (v : JsVal) : Obj := <[k := v]> o.

(** String conversion of a value inside a template literal. *)
Definition template (v : JsVal) : string :=
  match v with
  | JUndefined => "undefined"
  | JNull => "null"
  | JBool true => "true"
  | JBool false => "false"
  | JNum n => pretty n
  | JStr s => s
  end.

(** Truthiness of a string ([s && ...], [s || ...]). *)
Definition truthy (s : string) : bool := negb (bool_decide (s = "")).

End Js.

Import Js.

(** ** App.js, [EventsList]: the events snapshot and its push handlers *)

Module EventsList.

(** [const [events, setEvents] = useState([])] *)
Definition initial : list Obj := [].

(** [setEvents(response.data)] in [fetchEvents]. *)
Definition fetchEvents (response_data : list Obj) (prev : list Obj) : list Obj :=
  response_data.

(** [socketService.on('new_event', (eventData) =>
       setEvents(prev => [eventData, ...prev]))] *)
Definition new_event (eventData : Obj) (prev : list Obj) : list Obj :=
  eventData :: prev.

(** [socketService.on('seats_updated', (data) =>
       setEvents(prev => prev.map(event =>
         event.id === data.event_id
           ? { ...event, available_seats: data.available_seats }
           : event)))] *)
Definition seats_updated (data : Obj) (prev : list Obj) : list Obj :=
  map (fun event =>
         if strict_eq (prop event "id") (prop data "event_id")
         then spread_with event "available_seats" (prop data "available_seats")
         else event)
      prev.

(** The inputs that change the snapshot while the list is mounted. *)
Inductive Input : Type :=
| Fetched (response_data : list Obj)
| NewEvent (eventData : Obj)
| SeatsUpdated (data : Obj).

Definition apply (i : Input) (prev : list Obj) : list Obj :=
  match i with
  | Fetched d => fetchEvents d prev
  | NewEvent e => new_event e prev
  | SeatsUpdated d => seats_updated d prev
  end.

Definition run (inputs : list Input) (s : list Obj) : list Obj :=
  foldl (fun acc i => apply i acc) s inputs.

End EventsList.

(** ** NotificationBar.js: the bounded, self-expiring notification list *)

Module NotificationBar.

Record Notification : Type := mkNotification {
  id : Z;              (* [Date.now()], milliseconds *)
  type : string;
  message : string;
  timestamp : Z        (* [new Date()] *)
}.

#[global] Instance Notification_eq_dec : EqDecision Notification.
Proof. solve_decision. Defined.

(** A pending [setTimeout(() => removeNotification(target), 5000)]. *)
Record Timer : Type := mkTimer {
  due : Z;
  target : Z
}.

#[global] Instance Timer_eq_dec : EqDecision Timer.
Proof. solve_decision. Defined.

(** The component's two state cells, together with the part of the browser
    its code reads and writes: the clock behind [Date.now()] and the queue
    of timeouts it has scheduled. *)
Record Bar : Type := mkBar {
  notifications : list Notification;
  onlineUsers : JsVal;
  timers : list Timer;
  now : Z
}.

(** [useState([])], [useState(0)], nothing scheduled, mounted at [t0]. *)
Definition mount (t0 : Z) : Bar :=
  {| notifications := []; onlineUsers := JNum 0; timers := []; now := t0 |}.

Definition initial : Bar := mount 0.

(** [setNotifications(prev => prev.filter(n => n.id !== id))] *)
Definition removeNotification (i : Z) (s : Bar) : Bar :=
  {| notifications := filter (fun n => id n <> i) (notifications s);
     onlineUsers := onlineUsers s;
     timers := timers s;
     now := now s |}.

(** [setNotifications(prev => [notification, ...prev].slice(0, 5));
     setTimeout(() => { removeNotification(notification.id); }, 5000);] *)
Definition addNotification (notification : Notification) (s : Bar) : Bar :=
  {| notifications := take 5 (notification :: notifications s);
     onlineUsers := onlineUsers s;
     timers := timers s ++ [ {| due := (now s + 5000)%Z; target := id notification |} ];
     now := now s |}.

(** The object literals the three notifying handlers pass to
    [addNotification]; [Date.now()] and [new Date()] read the clock. *)
Definition new_event_notification (eventData : Obj) (s : Bar) : Notification :=
  {| id := now s;
     type := "new_event";
     message := "New event: " +:+ template (prop eventData "title")
                +:+ " by " +:+ template (prop eventData "created_by");
     timestamp := now s |}.

Definition booking_notification (data : Obj) (s : Bar) : Notification :=
  {| id := now s;
     type := "booking";
     message := template (prop data "booked_by") +:+ " booked "
                +:+ template (prop data "seats_booked") +:+ " seat(s) for "
                +:+ template (prop data "event_title");
     timestamp := now s |}.

Definition seats_notification (data : Obj) (s : Bar) : Notification :=
  {| id := now s;
     type := "seats";
     message := "Seats update: " +:+ template (prop data "available_seats")
                +:+ "/" +:+ template (prop data "total_seats")
                +:+ " available for Event #" +:+ template (prop data "event_id");
     timestamp := now s |}.

(** The four handlers registered in the effect. *)
Definition users_online (data : Obj) (s : Bar) : Bar :=
  {| notifications := notifications s;
     onlineUsers := prop data "count";
     timers := timers s;
     now := now s |}.

Definition new_event (eventData : Obj) (s : Bar) : Bar :=
  addNotification (new_event_notification eventData s) s.

Definition booking_update (data : Obj) (s : Bar) : Bar :=
  addNotification (booking_notification data s) s.

Definition seats_updated (data : Obj) (s : Bar) : Bar :=
  addNotification (seats_notification data s) s.

(** What can happen to the mounted component: one of the four push events
    arrives, or the user clicks a displayed notification
    ([onClick={() => removeNotification(notification.id)}]). *)
Inductive Input : Type :=
| UsersOnline (data : Obj)
| NewEvent (eventData : Obj)
| BookingUpdate (data : Obj)
| SeatsUpdated (data : Obj)
| Click (i : Z).

Definition handle (i : Input) (s : Bar) : Bar :=
  match i with
  | UsersOnline d => users_online d s
  | NewEvent d => new_event d s
  | BookingUpdate d => booking_update d s
  | SeatsUpdated d => seats_updated d s
  | Click k => removeNotification k s
  end.

(** The notification an input hands to [addNotification], if any. *)
Definition created (i : Input) (s : Bar) : option Notification :=
  match i with
  | UsersOnline _ => None
  | NewEvent d => Some (new_event_notification d s)
  | BookingUpdate d => Some (booking_notification d s)
  | SeatsUpdated d => Some (seats_notification d s)
  | Click _ => None
  end.

(** *** Time

    The event loop is modelled in discrete time (milliseconds). The clock
    never runs backwards, and a timeout's callback runs when its delay has
    elapsed: moving the clock to [t] first runs, in scheduling order, the
    callbacks of all timeouts due by [t]. *)
Definition is_due (t : Z) (tm : Timer) : Prop := (due tm <= t)%Z.

#[global] Instance is_due_dec t tm : Decision (is_due t tm).
Proof. unfold is_due. apply _. Defined.

Definition fire (s : Bar) (tm : Timer) : Bar := removeNotification (target tm) s.

Definition advance_to (t : Z) (s : Bar) : Bar :=
  let t' := Z.max (now s) t in
  let s' := foldl fire s (filter (is_due t') (timers s)) in
  {| notifications := notifications s';
     onlineUsers := onlineUsers s';
     timers := filter (fun tm => ~ is_due t' tm) (timers s);
     now := t' |}.

(** An input arriving at time [t]. *)
Definition step (s : Bar) (ti : Z * Input) : Bar :=
  handle (snd ti) (advance_to (fst ti) s).

Definition run (trace : list (Z * Input)) (s : Bar) : Bar :=
  foldl step s trace.

(** The [notifications] state at time [t] after [trace]: the array the
    component maps over when it renders. What is on the page is
    [NotificationList.on_screen]. *)
Definition displayed_at (t : Z) (trace : list (Z * Input)) (s : Bar) : list Notification :=
  notifications (advance_to t (run trace s)).

(** Every pending timeout lies in the future, and every displayed
    notification still has the timeout that was scheduled with it. *)
Definition timely (s : Bar) : Prop :=
  (forall tm, tm ∈ timers s -> (now s < due tm)%Z)
  /\ (forall n, n ∈ notifications s ->
        {| due := (id n + 5000)%Z; target := id n |} ∈ timers s).

End NotificationBar.

(** ** services/socketService.js: the connection manager *)

Module SocketService.

(** The callbacks that get registered on a socket: the three logging
    arrows of [connect()] and the callers' handlers, told apart by the
    identity of the function object. *)
Inductive Handler : Type :=
| LogConnected
| LogDisconnected
| LogError
| Callback (c : nat).

#[global] Instance Handler_eq_dec : EqDecision Handler.
Proof. solve_decision. Defined.

(** The object [io(url, opts)] returns: the underlying connection it
    owns and its listeners, in registration order. *)
Record Socket : Type := mkSocket {
  conn : nat;
  handlers : list (string * Handler)
}.

(** The singleton's two fields, and what the socket library keeps outside
    of it: the underlying connections that are open, the next connection
    [io()] will open, and the messages emitted so far. *)
Record State : Type := mkState {
  socket : option Socket;
  listeners : gmap string (list Handler);
  live : list nat;
  fresh : nat;
  sent : list (nat * string * Obj)
}.

(** [constructor() { this.socket = null; this.listeners = {}; }] *)
Definition initial : State :=
  {| socket := None; listeners := ∅; live := []; fresh := 0%nat; sent := [] |}.

(** [socket.on(event, callback)] of the library. *)
Definition socket_on (event : string) (callback : Handler) (k : Socket) : Socket :=
  {| conn := conn k; handlers := handlers k ++ [(event, callback)] |}.

(** [connect()] *)
Definition connect (s : State) : Socket * State :=
  match socket s with
  | None =>
      let k := {| conn := fresh s; handlers := [] |} in
      let k := socket_on "connect" LogConnected k in
      let k := socket_on "disconnect" LogDisconnected k in
      let k := socket_on "error" LogError k in
      (k, {| socket := Some k;
             listeners := listeners s;
             live := fresh s :: live s;
             fresh := S (fresh s);
             sent := sent s |})
  | Some k => (k, s)
  end.

(** [this.socket.emit(name, payload)] under [if (this.socket)]. *)
Definition emit (name : string) (payload : Obj) (s : State) : State :=
  match socket s with
  | Some k =>
      {| socket := socket s;
         listeners := listeners s;
         live := live s;
         fresh := fresh s;
         sent := sent s ++ [(conn k, name, payload)] |}
  | None => s
  end.

Definition authenticate (username : JsVal) (s : State) : State :=
  emit "authenticate" {[ "username" := username ]} s.

Definition joinEventRoom (eventId : JsVal) (s : State) : State :=
  emit "join_event_room" {[ "event_id" := eventId ]} s.

Definition leaveEventRoom (eventId : JsVal) (s : State) : State :=
  emit "leave_event_room" {[ "event_id" := eventId ]} s.

(** [disconnect()]: [this.socket.disconnect(); this.socket = null;] *)
Definition disconnect (s : State) : State :=
  match socket s with
  | Some k =>
      {| socket := None;
         listeners := listeners s;
         live := filter (fun c => c <> conn k) (live s);
         fresh := fresh s;
         sent := sent s |}
  | None => s
  end.

(** [on(event, callback)] *)
Definition on (event : string) (callback : Handler) (s : State) : State :=
  match socket s with
  | Some k =>
      {| socket := Some (socket_on event callback k);
         listeners := listeners s;
         live := live s;
         fresh := fresh s;
         sent := sent s |}
  | None => s
  end.

(** The handlers an inbound [event] invokes: those registered for it on
    the socket the service holds. *)
Definition deliver (event : string) (s : State) : list Handler :=
  match socket s with
  | Some k => (filter (fun eh => fst eh = event) (handlers k)).*2
  | None => []
  end.

Section Off.

(** [socket.off(event, callback)] belongs to the socket library; the
    service's callers pass a callback or leave it [undefined]. What it
    does to a socket's listeners is left open. *)
Variable emitter_off :
  string -> option Handler -> list (string * Handler) -> list (string * Handler).

(** [off(event, callback)] *)
Definition off (event : string) (callback : option Handler) (s : State) : State :=
  match socket s with
  | Some k =>
      {| socket := Some {| conn := conn k;
                           handlers := emitter_off event callback (handlers k) |};
         listeners := listeners s;
         live := live s;
         fresh := fresh s;
         sent := sent s |}
  | None => s
  end.

(** A call of one of the singleton's methods. *)
Inductive Op : Type :=
| Connect
| Authenticate (username : JsVal)
| JoinEventRoom (eventId : JsVal)
| LeaveEventRoom (eventId : JsVal)
| Disconnect
| On (event : string) (callback : Handler)
| OffOp (event : string) (callback : option Handler).

Definition call (s : State) (o : Op) : State :=
  match o with
  | Connect => snd (connect s)
  | Authenticate u => authenticate u s
  | JoinEventRoom e => joinEventRoom e s
  | LeaveEventRoom e => leaveEventRoom e s
  | Disconnect => disconnect s
  | On e cb => on e cb s
  | OffOp e cb => off e cb s
  end.

Definition run (ops : list Op) (s : State) : State := foldl call s ops.

End Off.

(** The open underlying connections are exactly the one of the socket the
    service holds, if it holds one. *)
Definition one_connection (s : State) : Prop :=
  live s = match socket s with
           | Some k => [conn k]
           | None => []
           end.

(** The handler [h] is on no listener list the service can reach. *)
Definition unregistered (h : Handler) (s : State) : Prop :=
  match socket s with
  | Some k => h ∉ (handlers k).*2
  | None => True
  end.

End SocketService.

(** ** App.js, [EventCard]: seat selection and the way into payment *)

Module EventCard.

(** [booking], [seats], [error], [showPayment]. [seats] holds what
    [parseInt] returned; [None] stands for [NaN]. *)
Record State : Type := mkState {
  booking : bool;
  seats : option Z;
  error : string;
  showPayment : bool
}.

(** [useState(false)], [useState(1)], [useState('')], [useState(false)] *)
Definition initial : State :=
  {| booking := false; seats := Some 1%Z; error := ""; showPayment := false |}.

(** What the card's callbacks do besides setting state. *)
Inductive Effect : Type :=
| Alert (text : string)
| OnBooked.

(** [handleBooking]; [user] is [useAuth().user], [null] without a session. *)
Definition handleBooking (user : option Obj) (s : State) : State :=
  match user with
  | None =>
      {| booking := booking s; seats := seats s;
         error := "Please login to book";
         showPayment := showPayment s |}
  | Some _ =>
      {| booking := booking s; seats := seats s; error := error s;
         showPayment := true |}
  end.

(** [onChange={(e) => setSeats(parseInt(e.target.value))}] *)
Definition setSeats (parsed : option Z) (s : State) : State :=
  {| booking := booking s; seats := parsed; error := error s;
     showPayment := showPayment s |}.

(** The [onSuccess] prop handed to [PaymentForm]. *)
Definition onSuccess (bookingId : JsVal) (s : State) : State * list Effect :=
  ({| booking := booking s; seats := seats s; error := error s;
      showPayment := false |},
   [Alert ("Payment successful! Booking ID: " +:+ template bookingId); OnBooked]).

(** The [onCancel] prop handed to [PaymentForm]. *)
Definition onCancel (s : State) : State :=
  {| booking := booking s; seats := seats s; error := error s;
     showPayment := false |}.

(** [v > 0]: the operand is converted to a number first ([undefined] gives
    [NaN], [null] gives 0, booleans 0 and 1). Seat counts arrive as
    numbers; a string operand is not converted here and counts as not
    positive. *)
Definition gt_zero (v : JsVal) : bool :=
  match v with
  | JNum n => bool_decide (0 < n)%Z
  | JBool b => b
  | JUndefined | JNull | JStr _ => false
  end.

(** The conditional blocks of the card below the event's details. *)
Record Card : Type := mkCard {
  booking_section : bool;          (* seat selector and Book button *)
  error_text : option string;      (* [<p className="error-text">], inside it *)
  login_prompt : option string;    (* [<p className="login-prompt">] *)
  sold_out : bool
}.

Inductive View : Type :=
| PaymentFormView (event : Obj) (seats : option Z)
| CardView (c : Card).

(** What the component returns. *)
Definition render (user : option Obj) (event : Obj) (s : State) : View :=
  if showPayment s then PaymentFormView event (seats s)
  else
    let section := bool_decide (is_Some user) && gt_zero (prop event "available_seats") in
    CardView
      {| booking_section := section;
         error_text := if section && truthy (error s) then Some (error s) else None;
         login_prompt :=
           match user with
           | None => Some "Please login to book this event"
           | Some _ => None
           end;
         sold_out := strict_eq (prop event "available_seats") (JNum 0) |}.

End EventCard.

(** ** PaymentForm component, [CheckoutForm]: one submission of the card form *)

Module CheckoutForm.

(** [error] ([null] or a message) and [processing]. *)
Record State : Type := mkState {
  error : option string;
  processing : bool
}.

Definition initial : State := {| error := None; processing := false |}.

(** How an awaited promise settles; a rejection carries
    [err.response?.data?.detail], [None] when that chain is [undefined]. *)
Inductive Settled (A : Type) : Type :=
| Resolved (a : A)
| Rejected (detail : option string).
Arguments Resolved {A} a.
Arguments Rejected {A} detail.

(** What the outside answers during one submission. *)
Record Outside : Type := mkOutside {
  stripe_ready : bool;                          (* [stripe && elements] *)
  create_payment_intent : Settled Obj;          (* [POST /create-payment-intent] *)
  confirm_card_payment : Settled (option string); (* [result.error.message], if [result.error] *)
  confirm_payment : Settled unit                (* [POST /confirm-payment/{id}] *)
}.

(** The calls a submission issues, in order. *)
Inductive Call : Type :=
| PostCreatePaymentIntent (event_id : JsVal) (seats : option Z)
| ConfirmCardPayment (client_secret : JsVal)
| PostConfirmPayment (booking_id : JsVal)
| OnSuccess (booking_id : JsVal).

(** [catch (err) { setError(err.response?.data?.detail || 'Payment failed') }
     finally { setProcessing(false) }] *)
Definition caught (detail : option string) : State :=
  {| error := Some (match detail with
                    | Some d => if truthy d then d else "Payment failed"
                    | None => "Payment failed"
                    end);
     processing := false |}.

(** [handleSubmit] *)
Definition handleSubmit (event : Obj) (seats : option Z) (w : Outside) (s : State)
  : State * list Call :=
  if negb (stripe_ready w) then (s, [])
  else
    let intent := PostCreatePaymentIntent (prop event "id") seats in
    match create_payment_intent w with
    | Rejected detail => (caught detail, [intent])
    | Resolved data =>
        let confirm := ConfirmCardPayment (prop data "client_secret") in
        match confirm_card_payment w with
        | Rejected detail => (caught detail, [intent; confirm])
        | Resolved (Some message) =>
            ({| error := Some message; processing := false |}, [intent; confirm])
        | Resolved None =>
            let post := PostConfirmPayment (prop data "booking_id") in
            match confirm_payment w with
            | Rejected detail => (caught detail, [intent; confirm; post])
            | Resolved _ =>
                ({| error := None; processing := false |},
                 [intent; confirm; post; OnSuccess (prop data "booking_id")])
            end
        end
    end.

(** [{error && <div className="error-message">{error}</div>}] *)
Definition error_message (s : State) : option string :=
  match error s with
  | Some m => if truthy m then Some m else None
  | None => None
  end.

End CheckoutForm.

(** ** The card and the payment form it mounts, taken together *)

Module BookingFlow.

Record State : Type := mkState {
  card : EventCard.State;
  form : CheckoutForm.State
}.

(** The form's [onSuccess] prop is the card's callback. *)
Definition callback (acc : EventCard.State * list EventCard.Effect) (c : CheckoutForm.Call)
  : EventCard.State * list EventCard.Effect :=
  match c with
  | CheckoutForm.OnSuccess b =>
      let r := EventCard.onSuccess b (fst acc) in (fst r, snd acc ++ snd r)
  | _ => acc
  end.

(** Pressing Pay while the form is shown. *)
Definition submit (event : Obj) (w : CheckoutForm.Outside) (s : State)
  : State * list CheckoutForm.Call * list EventCard.Effect :=
  let r := CheckoutForm.handleSubmit event (EventCard.seats (card s)) w (form s) in
  let c := foldl callback (card s, []) (snd r) in
  ({| card := fst c; form := fst r |}, snd r, snd c).

(** Pressing Book on the card: the form, when it gets shown, starts fresh. *)
Definition book (user : option Obj) (s : State) : State :=
  {| card := EventCard.handleBooking user (card s); form := CheckoutForm.initial |}.

(** The states of the flow as the screen shows them. *)
Inductive Stage : Type :=
| SeatSelection
| PaymentPending.

Definition stage (s : State) : Stage :=
  if EventCard.showPayment (card s) then PaymentPending else SeatSelection.

(** What the user can do. The Book button and the seat input belong to
    the card, the Pay and Cancel buttons to the payment form; the
    component returns one or the other. *)
Inductive Action : Type :=
| Book
| ChangeSeats (parsed : option Z)
| Pay (w : CheckoutForm.Outside)
| Cancel.

(** One action under the session [user], logging the calls it issues. *)
Definition act (user : option Obj) (event : Obj)
    (acc : State * list CheckoutForm.Call) (a : Action) : State * list CheckoutForm.Call :=
  let s := fst acc in
  match stage s, a with
  | SeatSelection, Book => (book user s, snd acc)
  | SeatSelection, ChangeSeats parsed =>
      ({| card := EventCard.setSeats parsed (card s); form := form s |}, snd acc)
  | PaymentPending, Pay w =>
      let r := submit event w s in (fst (fst r), snd acc ++ snd (fst r))
  | PaymentPending, Cancel =>
      ({| card := EventCard.onCancel (card s); form := form s |}, snd acc)
  | _, _ => acc
  end.

Definition session (user : option Obj) (event : Obj) (actions : list Action) (s : State)
  : State * list CheckoutForm.Call :=
  foldl (act user event) (s, []) actions.

End BookingFlow.

(** ** App.js, [AppContent]: which parts of the page are rendered *)

Module AppContent.

(** [showAuth] lives in [AppContent], [showBookings] in [App]. *)
Record State : Type := mkState {
  showAuth : bool;
  showBookings : bool
}.

Definition initial : State := {| showAuth := false; showBookings := false |}.

(** The conditional blocks of the returned tree. *)
Record Screen : Type := mkScreen {
  loading_screen : bool;     (* [<div className="loading">Loading...</div>] *)
  navigation : bool;
  notification_bar : bool;   (* [{user && <NotificationBar />}] *)
  tabs : bool;
  hero : bool;
  auth_form : bool;
  events_list : bool;
  my_bookings : bool
}.

Definition render (user : option Obj) (loading : bool) (s : State) : Screen :=
  if loading then
    {| loading_screen := true; navigation := false; notification_bar := false;
       tabs := false; hero := false; auth_form := false; events_list := false;
       my_bookings := false |}
  else
    let u := bool_decide (is_Some user) in
    {| loading_screen := false;
       navigation := true;
       notification_bar := u;
       tabs := u;
       hero := negb u && negb (showAuth s);
       auth_form := negb u && showAuth s;
       events_list := (u || negb (showAuth s)) && negb (showBookings s);
       my_bookings := u && showBookings s |}.

(** The buttons: Get Started, the form's [onSuccess], the two tabs. *)
Inductive Click : Type :=
| GetStarted
| AuthSucceeded
| EventsTab
| BookingsTab.

Definition click (s : State) (c : Click) : State :=
  match c with
  | GetStarted => {| showAuth := true; showBookings := showBookings s |}
  | AuthSucceeded => {| showAuth := false; showBookings := showBookings s |}
  | EventsTab => {| showAuth := showAuth s; showBookings := false |}
  | BookingsTab => {| showAuth := showAuth s; showBookings := true |}
  end.

(** A button can be clicked when the block holding it is rendered. *)
Definition offered (user : option Obj) (loading : bool) (s : State) (c : Click) : bool :=
  match c with
  | GetStarted => hero (render user loading s)
  | AuthSucceeded => auth_form (render user loading s)
  | EventsTab | BookingsTab => tabs (render user loading s)
  end.

(** Clicking does something only where the button is on the page. *)
Definition press (user : option Obj) (loading : bool) (s : State) (c : Click) : State :=
  if offered user loading s c then click s c else s.

Definition presses (user : option Obj) (loading : bool) (cs : list Click) (s : State) : State :=
  foldl (press user loading) s cs.

End AppContent.

(** ** App.js, [AuthForm]: one submission of the login / register form *)

Module AuthForm.

Record State : Type := mkState {
  isLogin : bool;
  formData : Obj;
  error : string;
  loading : bool
}.

Definition initial : State :=
  {| isLogin := true;
     formData := {[ "username" := JStr ""; "email" := JStr "";
                    "password" := JStr ""; "full_name" := JStr "" ]};
     error := "";
     loading := false |}.

(** [setFormData({ ...formData, [e.target.name]: e.target.value })] *)
Definition handleChange (name value : string) (s : State) : State :=
  {| isLogin := isLogin s;
     formData := spread_with (formData s) name (JStr value);
     error := error s;
     loading := loading s |}.

(** How [register] and [login] of the auth context settle. *)
Record Outside : Type := mkOutside {
  register : CheckoutForm.Settled unit;
  login : CheckoutForm.Settled unit
}.

Inductive Call : Type :=
| Register (userData : Obj)
| Login (username password : JsVal)
| OnSuccess.

(** [catch (error) { setError(error.response?.data?.detail || 'An error occurred') }
     finally { setLoading(false) }] *)
Definition caught (detail : option string) (s : State) : State :=
  {| isLogin := isLogin s;
     formData := formData s;
     error := match detail with
              | Some d => if truthy d then d else "An error occurred"
              | None => "An error occurred"
              end;
     loading := false |}.

(** The state after [setError('')], the [try] block and [setLoading(false)]. *)
Definition finished (s : State) : State :=
  {| isLogin := isLogin s; formData := formData s; error := ""; loading := false |}.

(** [handleSubmit] *)
Definition handleSubmit (w : Outside) (s : State) : State * list Call :=
  let sign_in := Login (prop (formData s) "username") (prop (formData s) "password") in
  if isLogin s then
    match login w with
    | CheckoutForm.Rejected detail => (caught detail s, [sign_in])
    | CheckoutForm.Resolved _ => (finished s, [sign_in; OnSuccess])
    end
  else
    let sign_up := Register (formData s) in
    match register w with
    | CheckoutForm.Rejected detail => (caught detail s, [sign_up])
    | CheckoutForm.Resolved _ =>
        match login w with
        | CheckoutForm.Rejected detail => (caught detail s, [sign_up; sign_in])
        | CheckoutForm.Resolved _ => (finished s, [sign_up; sign_in; OnSuccess])
        end
    end.

End AuthForm.

(** ** App.js, [AuthProvider]: the session and where its token is kept *)

Module AuthProvider.

(** Truthiness of a value ([if (token)]). *)
Definition truthy_val (v : JsVal) : bool :=
  match v with
  | JUndefined | JNull => false
  | JBool b => b
  | JNum n => negb (bool_decide (n = 0%Z))
  | JStr s => truthy s
  end.

(** The provider's three state cells and the three places outside of it
    that its functions write: [localStorage]'s ['token'] item, the
    [Authorization] default header of axios, and the socket singleton. *)
Record State : Type := mkState {
  user : option Obj;
  token : JsVal;
  loading : bool;
  stored : option string;
  authorization : option string;
  socket : SocketService.State
}.

(** [useState(null)], [useState(localStorage.getItem('token'))],
    [useState(true)]. *)
Definition init (item : option string) : State :=
  {| user := None;
     token := match item with
              | Some t => JStr t
              | None => JNull
              end;
     loading := true;
     stored := item;
     authorization := None;
     socket := SocketService.initial |}.

(** [logout] *)
Definition logout (s : State) : State :=
  {| user := None; token := JNull; loading := loading s;
     stored := None; authorization := None; socket := socket s |}.

(** [login], from the moment [POST /token] has resolved with [data] up to
    the call of [fetchUser]. [setItem] stores the string conversion. *)
Definition login_token (data : Obj) (s : State) : State :=
  let access_token := prop data "access_token" in
  {| user := user s;
     token := access_token;
     loading := loading s;
     stored := Some (template access_token);
     authorization := Some ("Bearer " +:+ template access_token);
     socket := socket s |}.

(** [fetchUser], from the moment [GET /me] has settled. *)
Definition fetchUser_settled (me : CheckoutForm.Settled Obj) (s : State) : State :=
  match me with
  | CheckoutForm.Resolved data =>
      {| user := Some data; token := token s; loading := false;
         stored := stored s; authorization := authorization s;
         socket := SocketService.authenticate (prop data "username") (socket s) |}
  | CheckoutForm.Rejected _ =>
      let s' := logout s in
      {| user := user s'; token := token s'; loading := false;
         stored := stored s'; authorization := authorization s';
         socket := socket s' |}
  end.

(** [login], after [await fetchUser()]. *)
Definition login_tail (username : JsVal) (s : State) : State :=
  {| user := user s; token := token s; loading := loading s;
     stored := stored s; authorization := authorization s;
     socket := SocketService.authenticate username (socket s) |}.

(** The body of the [[token]] effect, up to the call of [fetchUser]. The
    [token] it reads is the one of the render it belongs to; React runs
    the effect before it processes a further state update, so this is the
    token of the current state. *)
Definition effect (s : State) : State :=
  let sock := snd (SocketService.connect (socket s)) in
  if truthy_val (token s) then
    {| user := user s; token := token s; loading := loading s;
       stored := stored s;
       authorization := Some ("Bearer " +:+ template (token s));
       socket := sock |}
  else
    {| user := user s; token := token s; loading := false;
       stored := stored s; authorization := authorization s;
       socket := sock |}.

(** The effect's cleanup. *)
Definition cleanup (s : State) : State :=
  {| user := user s; token := token s; loading := loading s;
     stored := stored s; authorization := authorization s;
     socket := SocketService.disconnect (socket s) |}.

(** The pieces of code that run to completion, one at a time, in whatever
    order the browser schedules them. *)
Inductive Step : Type :=
| TokenReceived (data : Obj)
| MeSettled (me : CheckoutForm.Settled Obj)
| LoginTail (username : JsVal)
| Effect
| Cleanup
| Logout.

Definition step (s : State) (x : Step) : State :=
  match x with
  | TokenReceived data => login_token data s
  | MeSettled me => fetchUser_settled me s
  | LoginTail username => login_tail username s
  | Effect => effect s
  | Cleanup => cleanup s
  | Logout => logout s
  end.

Definition run (steps : list Step) (s : State) : State := foldl step s steps.

(** The token in the state is the stored one, and the header, when set,
    carries the stored one. *)
Definition consistent (s : State) : Prop :=
  (token s = JNull /\ stored s = None \/ stored s = Some (template (token s)))
  /\ (forall h, authorization s = Some h ->
        exists t, stored s = Some t /\ h = "Bearer " +:+ t).

End AuthProvider.

(** ** Notions used to state properties of the models above *)

Module Notions.

(** Inputs of the events list other than a fetch. *)
Definition is_push (i : EventsList.Input) : bool :=
  match i with
  | EventsList.Fetched _ => false
  | _ => true
  end.

Definition is_new_event (i : EventsList.Input) : bool :=
  match i with
  | EventsList.NewEvent _ => true
  | _ => false
  end.



Definition is_users_online (ti : Z * NotificationBar.Input) : bool :=
  match snd ti with
  | NotificationBar.UsersOnline _ => true
  | _ => false
  end.

(** All three awaited steps of a submission go well. *)
Definition succeeds (w : CheckoutForm.Outside) : bool :=
  CheckoutForm.stripe_ready w
  && match CheckoutForm.create_payment_intent w with
     | CheckoutForm.Resolved _ => true
     | CheckoutForm.Rejected _ => false
     end
  && match CheckoutForm.confirm_card_payment w with
     | CheckoutForm.Resolved None => true
     | _ => false
     end
  && match CheckoutForm.confirm_payment w with
     | CheckoutForm.Resolved _ => true
     | CheckoutForm.Rejected _ => false
     end.

(** The calls of a submission that runs to its end. *)
Definition full_sequence (event : Obj) (seats : option Z) (data : Obj)
  : list CheckoutForm.Call :=
  [ CheckoutForm.PostCreatePaymentIntent (prop event "id") seats;
    CheckoutForm.ConfirmCardPayment (prop data "client_secret");
    CheckoutForm.PostConfirmPayment (prop data "booking_id");
    CheckoutForm.OnSuccess (prop data "booking_id") ].

(** An awaited promise resolved. *)
Definition resolved {A : Type} (x : CheckoutForm.Settled A) : bool :=
  match x with
  | CheckoutForm.Resolved _ => true
  | CheckoutForm.Rejected _ => false
  end.

Definition is_on_success (c : CheckoutForm.Call) : bool :=
  match c with
  | CheckoutForm.OnSuccess _ => true
  | _ => false
  end.

End Notions.

(** ** react-dom: reconciling an array of keyed children

    [notifications.map(notification => <div key={notification.id} ...>)]
    hands React an array of keyed elements. On each render
    [reconcileChildrenArray] matches it against the children of the
    previous render. The part modelled here decides which of the old
    children keep their DOM node without being children any more. *)

Module Reconciler.

Section Keyed.

Context {A : Type}.
Variable key : A -> Z.

(** The first loop: old and new children are taken pairwise for as long
    as both are left and [updateSlot] finds the same key at the same
    place (the old child is then reused). Returns what is left of both. *)
Fixpoint walk (oldFibers newChildren : list A) : list A * list A :=
  match oldFibers, newChildren with
  | o :: oldFibers', n :: newChildren' =>
      if bool_decide (key o = key n) then walk oldFibers' newChildren'
      else (oldFibers, newChildren)
  | _, _ => (oldFibers, newChildren)
  end.

(** [mapRemainingChildren] runs [existingChildren.set(key, fiber)] over
    the old children in order: of several old children with one key only
    the last stays in the map. These are the ones that do not: they are
    neither found by [updateFromMap] (reused) nor by the final
    [existingChildren.forEach(child => deleteChild(...))] (removed). *)
Fixpoint lost_from_map (oldFibers : list A) : list A :=
  match oldFibers with
  | [] => []
  | o :: rest =>
      if bool_decide (key o ∈ key <$> rest) then o :: lost_from_map rest
      else lost_from_map rest
  end.

(** [reconcileChildrenArray], as far as DOM nodes outlive it: after the
    first loop, with no new child left the remaining old ones are all
    deleted ([deleteRemainingChildren]); with no old child left the
    remaining new ones are created; otherwise the remaining old ones go
    through the map. *)
Definition left_behind (oldFibers newChildren : list A) : list A :=
  match walk oldFibers newChildren with
  | (_, []) => []
  | ([], _ :: _) => []
  | (o :: rest, _ :: _) => lost_from_map (o :: rest)
  end.

End Keyed.

End Reconciler.

(** ** NotificationBar.js: the list as it is on the page *)

Module NotificationList.

(** The component together with the DOM nodes under
    [<div className="notifications-list">] that belong to no child any
    more; each still shows the notification it was rendered with. *)
Record Page : Type := mkPage {
  bar : NotificationBar.Bar;
  stale : list NotificationBar.Notification
}.

Definition mount (t0 : Z) : Page :=
  {| bar := NotificationBar.mount t0; stale := [] |}.

Definition initial : Page := mount 0.

(** A state update is followed by a render of the new array against the
    children of the previous one. *)
Definition commit (p : Page) (s' : NotificationBar.Bar) : Page :=
  {| bar := s';
     stale := stale p ++ Reconciler.left_behind NotificationBar.id
                           (NotificationBar.notifications (bar p))
                           (NotificationBar.notifications s') |}.

Definition handle (i : NotificationBar.Input) (p : Page) : Page :=
  commit p (NotificationBar.handle i (bar p)).

(** Each timeout's callback is a task of its own, with its own render. *)
Definition fire (p : Page) (tm : NotificationBar.Timer) : Page :=
  commit p (NotificationBar.fire (bar p) tm).

Definition advance_to (t : Z) (p : Page) : Page :=
  let t' := Z.max (NotificationBar.now (bar p)) t in
  let p' := foldl fire p (filter (NotificationBar.is_due t') (NotificationBar.timers (bar p))) in
  {| bar := {| NotificationBar.notifications := NotificationBar.notifications (bar p');
               NotificationBar.onlineUsers := NotificationBar.onlineUsers (bar p');
               NotificationBar.timers :=
                 filter (fun tm => ~ NotificationBar.is_due t' tm)
                        (NotificationBar.timers (bar p));
               NotificationBar.now := t' |};
     stale := stale p' |}.

Definition step (p : Page) (ti : Z * NotificationBar.Input) : Page :=
  handle (snd ti) (advance_to (fst ti) p).

Definition run (trace : list (Z * NotificationBar.Input)) (p : Page) : Page :=
  foldl step p trace.

(** The notifications shown under [notifications-list]: those of the
    current children and those of the nodes left behind. *)
Definition on_screen (p : Page) : list NotificationBar.Notification :=
  stale p ++ NotificationBar.notifications (bar p).

End NotificationList.

(** ** Sample payloads *)

Module Samples.

(** The snapshot of the scenario: event 1 with three seats left. *)
Definition event_1 : Obj :=
  {[ "id" := JNum 1; "title" := JStr "Jazz night"; "available_seats" := JNum 3;
     "total_seats" := JNum 40 ]}.

Definition event_7 : Obj :=
  {[ "id" := JNum 7; "title" := JStr "Open mic"; "available_seats" := JNum 0;
     "total_seats" := JNum 25 ]}.

Definition fetched : list Obj := [event_1; event_7].

(** [seats_updated {event_id: 1, available_seats: 2, total_seats: 40}] *)
Definition seats_of_1 : Obj :=
  {[ "event_id" := JNum 1; "available_seats" := JNum 2; "total_seats" := JNum 40 ]}.

(** A seat update for an event the snapshot does not hold. *)
Definition seats_of_9 : Obj :=
  {[ "event_id" := JNum 9; "available_seats" := JNum 5; "total_seats" := JNum 10 ]}.

Definition booking_of_1 : Obj :=
  {[ "booked_by" := JStr "ana"; "seats_booked" := JNum 1;
     "event_title" := JStr "Jazz night" ]}.

Definition created_12 : Obj :=
  {[ "id" := JNum 12; "title" := JStr "Book fair"; "created_by" := JStr "lee" ]}.

(** Seven pushes within two milliseconds. *)
Definition burst : list (Z * NotificationBar.Input) :=
  [ (1000%Z, NotificationBar.BookingUpdate booking_of_1);
    (1000%Z, NotificationBar.SeatsUpdated seats_of_1);
    (1000%Z, NotificationBar.UsersOnline {[ "count" := JNum 4 ]});
    (1001%Z, NotificationBar.NewEvent created_12);
    (1001%Z, NotificationBar.SeatsUpdated seats_of_9);
    (1001%Z, NotificationBar.BookingUpdate booking_of_1);
    (1001%Z, NotificationBar.NewEvent created_12);
    (1001%Z, NotificationBar.SeatsUpdated seats_of_1) ].

(** A booking: the two pushes it causes arrive in the same millisecond. *)
Definition one_booking : list (Z * NotificationBar.Input) :=
  [ (1000%Z, NotificationBar.BookingUpdate booking_of_1);
    (1000%Z, NotificationBar.SeatsUpdated seats_of_1) ].

(** A socket library whose [off(event, fn)] drops the listeners of [event]
    that are [fn], and all listeners of [event] when [fn] is left out. *)
Definition drop_listeners (event : string) (callback : option SocketService.Handler)
    (hs : list (string * SocketService.Handler)) : list (string * SocketService.Handler) :=
  List.filter (fun eh => negb (bool_decide (fst eh = event) &&
                                match callback with
                                | Some cb => bool_decide (snd eh = cb)
                                | None => true
                                end)) hs.

Definition ana : Obj := {[ "id" := JNum 3; "username" := JStr "ana" ]}.

(** The payment form is open for [event_1] with a session. *)
Definition paying : BookingFlow.State :=
  BookingFlow.book (Some ana)
    {| BookingFlow.card := EventCard.initial; BookingFlow.form := CheckoutForm.initial |}.

Definition intent : Obj :=
  {[ "client_secret" := JStr "pi_1_secret_x"; "booking_id" := JNum 55 ]}.

(** The intention is created, then the processor declines the card. *)
Definition declined : CheckoutForm.Outside :=
  {| CheckoutForm.stripe_ready := true;
     CheckoutForm.create_payment_intent := CheckoutForm.Resolved intent;
     CheckoutForm.confirm_card_payment :=
       CheckoutForm.Resolved (Some "Your card was declined.");
     CheckoutForm.confirm_payment := CheckoutForm.Resolved tt |}.

(** Every awaited step of the payment goes well. *)
Definition accepted : CheckoutForm.Outside :=
  {| CheckoutForm.stripe_ready := true;
     CheckoutForm.create_payment_intent := CheckoutForm.Resolved intent;
     CheckoutForm.confirm_card_payment := CheckoutForm.Resolved None;
     CheckoutForm.confirm_payment := CheckoutForm.Resolved tt |}.

(** The card is charged, then the backend refuses the confirmation. *)
Definition charged_unconfirmed : CheckoutForm.Outside :=
  {| CheckoutForm.stripe_ready := true;
     CheckoutForm.create_payment_intent := CheckoutForm.Resolved intent;
     CheckoutForm.confirm_card_payment := CheckoutForm.Resolved None;
     CheckoutForm.confirm_payment := CheckoutForm.Rejected (Some "Booking not found") |}.

(** The register form as filled in by a new user. *)
Definition signing_up : AuthForm.State :=
  AuthForm.handleChange "password" "s3cret"
    (AuthForm.handleChange "username" "ana"
       {| AuthForm.isLogin := false;
          AuthForm.formData := AuthForm.formData AuthForm.initial;
          AuthForm.error := "";
          AuthForm.loading := false |}).

End Samples.

(** * Properties *)

(** ** The events snapshot *)

Section EventsListFacts.

Import EventsList.

Implicit Types (data eventData event : Obj) (prev : list Obj).

Lemma seats_updated_length data prev :
  length (seats_updated data prev) = length prev.
Proof. unfold seats_updated. apply length_map. Qed.

Lemma seats_updated_lookup data prev (i : nat) :
  seats_updated data prev !! i =
  (fun event =>
     if strict_eq (prop event "id") (prop data "event_id")
     then spread_with event "available_seats" (prop data "available_seats")
     else event) <$> prev !! i.
Proof. unfold seats_updated. apply list_lookup_fmap. Qed.

(** Mapping with a test that fails on every entry returns the entries. *)
Lemma seats_updated_all_miss data prev :
  Forall (fun event => strict_eq (prop event "id") (prop data "event_id") = false) prev ->
  seats_updated data prev = prev.
Proof.
  unfold seats_updated.
  induction 1 as [|event prev Hne _ IH]; [reflexivity|].
  cbn [map]. rewrite Hne. f_equal. exact IH.
Qed.

(** The same over a whole burst of such events. *)
Lemma seats_updated_burst_all_miss (burst : list Obj) prev :
  Forall (fun data =>
            Forall (fun event => strict_eq (prop event "id") (prop data "event_id") = false)
                   prev) burst ->
  run (SeatsUpdated <$> burst) prev = prev.
Proof.
  unfold run. induction 1 as [|data burst Hd _ IH]; [reflexivity|].
  cbn [fmap list_fmap foldl apply].
  rewrite (seats_updated_all_miss _ _ Hd). exact IH.
Qed.

(** C1. A [seats_updated] event whose [event_id] is [===] to the [id] of no
    entry leaves the snapshot as it is: same entries in the same order,
    none added, none modified. The handler is a total function: mapping
    over an array of objects, reading properties and spreading cannot
    throw. *)
Theorem seats_updated_unknown_id_unchanged data prev :
  Forall (fun event => strict_eq (prop event "id") (prop data "event_id") = false) prev ->
  seats_updated data prev = prev
  /\ length (seats_updated data prev) = length prev
  /\ forall (i : nat), seats_updated data prev !! i = prev !! i.
Proof.
  intros Hmiss. rewrite (seats_updated_all_miss _ _ Hmiss). by repeat split.
Qed.

(** C2. When entry [i] carries the identifier the event names, the event
    puts the event's seat count into that entry's [available_seats] and
    changes nothing else: the entry's other properties, every entry with
    another identifier, and the length and order of the snapshot stay. *)
Theorem seats_updated_replaces_only_seat_count data prev (i : nat) event :
  prev !! i = Some event ->
  strict_eq (prop event "id") (prop data "event_id") = true ->
  length (seats_updated data prev) = length prev
  /\ (exists event',
        seats_updated data prev !! i = Some event'
        /\ prop event' "available_seats" = prop data "available_seats"
        /\ forall k : string, k <> "available_seats" -> event' !! k = event !! k)
  /\ (forall (j : nat) other,
        prev !! j = Some other ->
        strict_eq (prop other "id") (prop data "event_id") = false ->
        seats_updated data prev !! j = Some other).
Proof.
  intros Hi Hid. split; [apply seats_updated_length|]. split.
  - eexists. split.
    + rewrite seats_updated_lookup, Hi. cbn. rewrite Hid. reflexivity.
    + split.
      * unfold prop, spread_with. by rewrite lookup_insert_eq.
      * intros k Hk. unfold spread_with. by rewrite lookup_insert_ne.
  - intros j other Hj Hne.
    rewrite seats_updated_lookup, Hj. cbn. by rewrite Hne.
Qed.

(** C3. A [new_event] push puts the new entity in front of the prior
    snapshot, whatever its length, and leaves the rest as it was. Nothing
    is compared with what is already there: the same push applied twice,
    or a push following a refetch that already holds the entity, leaves
    the entity in the snapshot twice. *)
Theorem new_event_prepends_without_dedup eventData prev :
  new_event eventData prev = eventData :: prev
  /\ head (new_event eventData prev) = Some eventData
  /\ tail (new_event eventData prev) = prev
  /\ length (new_event eventData prev) = S (length prev)
  /\ new_event eventData (new_event eventData prev) = eventData :: eventData :: prev
  /\ ~ NoDup (new_event eventData (new_event eventData prev))
  /\ (forall before after : list Obj,
        run [Fetched (before ++ eventData :: after); NewEvent eventData] prev
        = eventData :: before ++ eventData :: after
        /\ ~ NoDup (run [Fetched (before ++ eventData :: after); NewEvent eventData] prev)).
Proof.
  unfold new_event. repeat split; try reflexivity.
  - intros Hnd. apply NoDup_cons in Hnd as [Hnotin _].
    apply Hnotin. apply list_elem_of_here.
  - cbn. intros Hnd. apply NoDup_cons in Hnd as [Hnotin _].
    apply Hnotin. apply elem_of_app. right. apply list_elem_of_here.
Qed.

Lemma seats_updated_unknown_id_unchanged_witness :
  seats_updated Samples.seats_of_9 Samples.fetched = Samples.fetched.
Proof.
  apply seats_updated_unknown_id_unchanged.
  repeat (apply Forall_cons; split; [vm_compute; reflexivity|]).
  apply Forall_nil. exact I.
Defined.

Lemma seats_updated_replaces_only_seat_count_witness :
  (exists event',
     seats_updated Samples.seats_of_1 Samples.fetched !! 0%nat = Some event'
     /\ prop event' "available_seats" = JNum 2)
  /\ seats_updated Samples.seats_of_1 Samples.fetched !! 1%nat = Some Samples.event_7.
Proof.
  destruct (seats_updated_replaces_only_seat_count
              Samples.seats_of_1 Samples.fetched 0 Samples.event_1)
    as (_ & (event' & Hlook & Hseats & _) & Hothers);
    [reflexivity | vm_compute; reflexivity |].
  split.
  - exists event'. split; [exact Hlook | rewrite Hseats; reflexivity].
  - apply Hothers; [reflexivity | vm_compute; reflexivity].
Defined.

End EventsListFacts.

(** ** The notification list *)

Section NotificationBarFacts.

Import NotificationBar.

Implicit Types (s : Bar) (n : Notification) (tm : Timer) (i : Input)
  (trace : list (Z * Input)).

(** *** The bound *)

Lemma addNotification_length n s :
  length (notifications (addNotification n s)) ≤ 5.
Proof. cbn [addNotification notifications]. rewrite length_take. lia. Qed.

Lemma removeNotification_length k s :
  length (notifications (removeNotification k s)) ≤ length (notifications s).
Proof. cbn [removeNotification notifications]. apply length_filter. Qed.

Lemma fired_length (due_timers : list Timer) s :
  length (notifications (foldl fire s due_timers)) ≤ length (notifications s).
Proof.
  revert s. induction due_timers as [|tm rest IH]; intros s; [reflexivity|].
  cbn [foldl]. etrans; [apply IH|]. apply removeNotification_length.
Qed.

Lemma advance_to_length t s :
  length (notifications (advance_to t s)) ≤ length (notifications s).
Proof. unfold advance_to. cbn [notifications]. apply fired_length. Qed.

Lemma handle_bound i s :
  length (notifications s) ≤ 5 -> length (notifications (handle i s)) ≤ 5.
Proof.
  intros Hs. destruct i; cbn [handle];
    unfold new_event, booking_update, seats_updated;
    try apply addNotification_length.
  - exact Hs.
  - etrans; [apply removeNotification_length | exact Hs].
Qed.

Lemma step_bound s ti :
  length (notifications s) ≤ 5 -> length (notifications (step s ti)) ≤ 5.
Proof.
  intros Hs. unfold step. apply handle_bound.
  etrans; [apply advance_to_length | exact Hs].
Qed.

Lemma run_bound trace s :
  length (notifications s) ≤ 5 -> length (notifications (run trace s)) ≤ 5.
Proof.
  unfold run. revert s. induction trace as [|ti trace IH]; intros s Hs; [exact Hs|].
  cbn [foldl]. apply IH, step_bound, Hs.
Qed.

(** X29. The [notifications] state array never holds more than five
    entries. Each thing that can happen to it keeps the bound: any of the
    four push events (three of them add a notification, [users_online]
    only sets the counter), a click on a notification, and timeouts
    running as the clock moves. So the bound on the array holds after
    every burst, at every time. *)
Theorem notifications_never_exceed_five trace s (t : Z) :
  length (notifications s) ≤ 5 ->
  (forall i, length (notifications (handle i s)) ≤ 5)
  /\ length (notifications (advance_to t s)) ≤ 5
  /\ length (notifications (run trace s)) ≤ 5
  /\ length (displayed_at t trace s) ≤ 5.
Proof.
  intros Hs. repeat split.
  - intros i. by apply handle_bound.
  - etrans; [apply advance_to_length | exact Hs].
  - by apply run_bound.
  - unfold displayed_at. etrans; [apply advance_to_length|]. by apply run_bound.
Qed.

Lemma notifications_never_exceed_five_witness :
  length (notifications initial) ≤ 5
  /\ length (notifications (run Samples.burst initial)) ≤ 5
  /\ length (displayed_at 1002 Samples.burst initial) ≤ 5.
Proof.
  assert (H0 : length (notifications initial) ≤ 5) by (cbn; lia).
  split; [exact H0|].
  destruct (notifications_never_exceed_five Samples.burst initial 1002 H0)
    as (_ & _ & Hrun & Hshown).
  split; [exact Hrun | exact Hshown].
Defined.

(** The burst fills the array to the brim. *)
Example burst_fills_list :
  length (notifications (run Samples.burst initial)) = 5%nat.
Proof. vm_compute. reflexivity. Qed.

(** *** Expiry *)

Lemma timely_mount (t0 : Z) : timely (mount t0).
Proof. split; intros x Hx; cbn in Hx; by apply elem_of_nil in Hx. Qed.

Lemma timely_removeNotification k s : timely s -> timely (removeNotification k s).
Proof.
  intros [Ht Hn]. split; cbn [removeNotification timers notifications now].
  - exact Ht.
  - intros n Hin. apply list_elem_of_filter in Hin as [_ Hin]. by apply Hn.
Qed.

Lemma timely_addNotification n s :
  id n = now s -> timely s -> timely (addNotification n s).
Proof.
  intros Hid [Ht Hn]. split; cbn [addNotification timers notifications now].
  - intros tm Htm. apply elem_of_app in Htm as [Htm|Htm]; [by apply Ht|].
    apply list_elem_of_singleton in Htm. subst tm. cbn. lia.
  - intros m Hm. apply elem_of_take in Hm as (j & Hj & _).
    apply list_elem_of_lookup_2 in Hj.
    apply elem_of_app. apply elem_of_cons in Hj as [->|Hj].
    + right. rewrite Hid. by apply list_elem_of_singleton.
    + left. by apply Hn.
Qed.

Lemma timely_handle i s : timely s -> timely (handle i s).
Proof.
  intros Hs. destruct i; cbn [handle].
  - destruct Hs as [Ht Hn]. split; assumption.
  - by apply timely_addNotification.
  - by apply timely_addNotification.
  - by apply timely_addNotification.
  - by apply timely_removeNotification.
Qed.

(** Running a batch of timeouts keeps exactly the notifications that none
    of them targets. *)
Lemma fired_elem (due_timers : list Timer) s n :
  n ∈ notifications (foldl fire s due_timers) <->
  n ∈ notifications s /\ forall tm, tm ∈ due_timers -> id n <> target tm.
Proof.
  revert s. induction due_timers as [|tm0 rest IH]; intros s; cbn [foldl].
  - split; [intros Hn; split; [exact Hn|]|tauto].
    intros tm Htm. by apply elem_of_nil in Htm.
  - rewrite IH. unfold fire at 1. cbn [removeNotification notifications].
    rewrite list_elem_of_filter. split.
    + intros [[Hne Hin] Hrest]. split; [exact Hin|].
      intros tm Htm. apply elem_of_cons in Htm as [->|Htm]; [exact Hne|by apply Hrest].
    + intros [Hin Hall]. split; [split; [|exact Hin]|].
      * apply Hall. apply elem_of_cons. by left.
      * intros tm Htm. apply Hall. apply elem_of_cons. by right.
Qed.

Lemma timely_advance_to (t : Z) s : timely s -> timely (advance_to t s).
Proof.
  intros [Ht Hn]. split; cbn [advance_to timers notifications now].
  - intros tm Htm. apply list_elem_of_filter in Htm as [Hnd _].
    unfold is_due in Hnd. lia.
  - intros n Hin. apply fired_elem in Hin as [Hin Hfired].
    apply list_elem_of_filter. split; [|by apply Hn].
    intros Hdue.
    apply (Hfired {| due := (id n + 5000)%Z; target := id n |}); [|reflexivity].
    apply list_elem_of_filter. split; [exact Hdue | by apply Hn].
Qed.

Lemma timely_run trace s : timely s -> timely (run trace s).
Proof.
  unfold run. revert s. induction trace as [|ti trace IH]; intros s Hs; [exact Hs|].
  cbn [foldl]. apply IH. unfold step. by apply timely_handle, timely_advance_to.
Qed.

Lemma now_advance_to (t : Z) s : (t <= now (advance_to t s))%Z.
Proof. cbn [advance_to now]. lia. Qed.

(** What is still displayed was created less than five seconds ago. *)
Lemma timely_recent s n :
  timely s -> n ∈ notifications s -> (now s < id n + 5000)%Z.
Proof. intros [Ht Hn] Hin. apply (Ht _ (Hn _ Hin)). Qed.

Lemma created_id i s n : created i s = Some n -> id n = now s.
Proof. destruct i; cbn; intros [= <-]; reflexivity. Qed.

Lemma created_handle i s n :
  created i s = Some n -> handle i s = addNotification n s.
Proof. destruct i; cbn; intros [= <-]; reflexivity. Qed.

(** X30. Take any history, and a push arriving at time [T] that adds the
    notification [n]; the handler runs at clock reading [now s]. The
    notification, put at the head of the state array at once, gets its
    own timeout, due 5000 ms later and appended to the pending ones, which
    stay as they are; removing a notification cancels no timeout.
    Whatever happens afterwards, [n] is not in the state array at any
    time [t] from [now s + 5000] on (a dismissal or an eviction by newer
    notifications can only remove it sooner). *)
Theorem notification_absent_after_delay
    (pre post : list (Z * Input)) (T t t0 : Z) i n :
  let s := advance_to T (run pre (mount t0)) in
  created i s = Some n ->
  (now s + 5000 <= t)%Z ->
  id n = now s
  /\ head (notifications (handle i s)) = Some n
  /\ timers (handle i s) = timers s ++ [ {| due := (now s + 5000)%Z; target := id n |} ]
  /\ (forall k s', timers (removeNotification k s') = timers s')
  /\ n ∉ displayed_at t (pre ++ (T, i) :: post) (mount t0).
Proof.
  intros s Hc Ht.
  pose proof (created_id _ _ _ Hc) as Hid.
  pose proof (created_handle _ _ _ Hc) as Hh.
  split; [exact Hid|]. split; [by rewrite Hh|]. split; [by rewrite Hh|].
  split; [reflexivity|].
  unfold displayed_at, run. rewrite foldl_app. cbn [foldl].
  change (foldl step (mount t0) pre) with (run pre (mount t0)).
  unfold step at 2. cbn [fst snd]. fold s.
  set (later := foldl step (handle i s) post).
  assert (Hlater : timely later).
  { apply timely_run, timely_handle, timely_advance_to, timely_run, timely_mount. }
  intros Hin.
  pose proof (timely_recent _ _ (timely_advance_to t _ Hlater) Hin) as Hrecent.
  pose proof (now_advance_to t later). lia.
Qed.

Lemma notification_absent_after_delay_witness :
  let n := booking_notification Samples.booking_of_1 (advance_to 1000 initial) in
  n ∈ displayed_at 5999 Samples.one_booking initial
  /\ n ∉ displayed_at 6000 Samples.one_booking initial.
Proof.
  intros n. split.
  - vm_compute. apply list_elem_of_lookup. exists 1%nat. reflexivity.
  - apply (notification_absent_after_delay
             [] [(1000%Z, SeatsUpdated Samples.seats_of_1)] 1000 6000 0
             (BookingUpdate Samples.booking_of_1) n).
    + reflexivity.
    + vm_compute. discriminate.
Defined.

(** *** Dismissal *)

Lemma removeNotification_elem k s n :
  n ∈ notifications (removeNotification k s) <-> id n <> k /\ n ∈ notifications s.
Proof. cbn [removeNotification notifications]. by rewrite list_elem_of_filter. Qed.

Lemma removeNotification_timers k s :
  timers (removeNotification k s) = timers s.
Proof. reflexivity. Qed.

Lemma filter_id_absent (k : Z) (l : list Notification) :
  k ∉ id <$> l -> filter (fun m => id m <> k) l = l.
Proof.
  induction l as [|m l IH]; [reflexivity|]. cbn [fmap list_fmap].
  intros Hk. apply not_elem_of_cons in Hk as [Hne Hk].
  rewrite filter_cons_True by congruence. f_equal. by apply IH.
Qed.

(** When the displayed notifications have pairwise distinct identifiers, a
    dismissal takes out the clicked notification and no other. *)
Lemma removeNotification_distinct_ids s n :
  NoDup (id <$> notifications s) ->
  n ∈ notifications s ->
  notifications (removeNotification (id n) s) = filter (fun m => m <> n) (notifications s).
Proof.
  cbn [removeNotification notifications].
  induction (notifications s) as [|m l IH]; intros Hnd Hin.
  - by apply elem_of_nil in Hin.
  - cbn [fmap list_fmap] in Hnd. apply NoDup_cons in Hnd as [Hm Hnd].
    apply elem_of_cons in Hin as [->|Hin].
    + rewrite filter_cons_False by (intros Hne; by apply Hne).
      rewrite filter_cons_False by (intros Hne; by apply Hne).
      rewrite filter_id_absent by exact Hm.
      symmetry. clear IH Hnd. induction l as [|x l IHl]; [reflexivity|].
      cbn [fmap list_fmap] in Hm. apply not_elem_of_cons in Hm as [Hx Hm].
      rewrite filter_cons_True by congruence. f_equal. by apply IHl.
    + assert (Hne : id m <> id n).
      { intros Heq. apply Hm. rewrite Heq. by apply list_elem_of_fmap_2. }
      rewrite filter_cons_True by exact Hne.
      rewrite filter_cons_True by congruence.
      f_equal. by apply IH.
Qed.

(** C8 at the input where it fails. A booking causes a [booking_update]
    and a [seats_updated] push; both arrive within the same millisecond,
    so both notifications get the same [Date.now()] as [id]. Clicking one
    of them filters by that [id] and removes both. No timeout is
    cancelled. *)
Theorem dismissing_one_of_two_same_millisecond_notifications :
  let s := run Samples.one_booking initial in
  id <$> notifications s = [1000%Z; 1000%Z]
  /\ type <$> notifications s = ["seats"; "booking"]
  /\ notifications (handle (Click 1000) s) = []
  /\ timers (handle (Click 1000) s) = timers s.
Proof. vm_compute. repeat split. Qed.

End NotificationBarFacts.

(** ** The connection manager *)

Section SocketServiceFacts.

Import SocketService.

Variable emitter_off :
  string -> option Handler -> list (string * Handler) -> list (string * Handler).

Implicit Types (s : State) (k : Socket) (ops : list Op).

Lemma connect_connected s k : socket s = Some k -> connect s = (k, s).
Proof. intros Hk. unfold connect. by rewrite Hk. Qed.

Lemma connect_socket s : socket (snd (connect s)) = Some (fst (connect s)).
Proof. unfold connect. destruct (socket s) as [k|] eqn:Hk; cbn; [exact Hk | reflexivity]. Qed.

Lemma connect_twice s : connect (snd (connect s)) = connect s.
Proof.
  rewrite (connect_connected _ _ (connect_socket s)).
  by destruct (connect s).
Qed.

Lemma one_connection_call s (o : Op) :
  one_connection s -> one_connection (call emitter_off s o).
Proof.
  unfold one_connection. intros Hs.
  destruct o; cbn [call];
    unfold connect, authenticate, joinEventRoom, leaveEventRoom, emit, disconnect, on, off;
    destruct (socket s) as [k|] eqn:Hk; cbn; rewrite ?Hk; try exact Hs.
  - by rewrite Hs.
  - rewrite Hs. rewrite filter_cons_False by (intros Hne; by apply Hne).
    reflexivity.
Qed.

Lemma one_connection_run ops s :
  one_connection s -> one_connection (run emitter_off ops s).
Proof.
  unfold run. revert s. induction ops as [|o ops IH]; intros s Hs; [exact Hs|].
  cbn [foldl]. by apply IH, one_connection_call.
Qed.

Lemma one_connection_length s : one_connection s -> length (live s) ≤ 1.
Proof. unfold one_connection. intros ->. destruct (socket s); cbn; lia. Qed.

(** C9. [connect()] on a service that holds a socket returns that socket
    and changes nothing: no connection is opened, the socket and its
    listeners stay. Hence a second [connect()] is the first one over
    again, and after any sequence of calls on the singleton at most one
    underlying connection is open. *)
Theorem connect_idempotent s k ops :
  socket s = Some k ->
  connect s = (k, s)
  /\ live (snd (connect s)) = live s
  /\ socket (snd (connect s)) = Some k
  /\ (forall s0, connect (snd (connect s0)) = connect s0)
  /\ length (live (run emitter_off ops initial)) ≤ 1
  /\ length (live (snd (connect (run emitter_off ops initial)))) ≤ 1.
Proof.
  intros Hk. rewrite (connect_connected _ _ Hk). cbn [fst snd].
  repeat split; try done.
  - apply connect_twice.
  - apply one_connection_length, one_connection_run. reflexivity.
  - apply one_connection_length.
    apply (one_connection_call _ Connect), one_connection_run. reflexivity.
Qed.

Lemma run_ext ops s s' : s = s' -> run emitter_off ops s = run emitter_off ops s'.
Proof. by intros ->. Qed.

(** After [connect()] on a service without a socket, an inbound event
    reaches only the three logging listeners [connect()] registers. *)
Lemma deliver_after_first_connect s (event : string) (h : Handler) :
  socket s = None ->
  h ∈ deliver event (snd (connect s)) ->
  h = LogConnected \/ h = LogDisconnected \/ h = LogError.
Proof.
  intros Hnone. unfold connect, deliver. rewrite Hnone. cbn [snd socket].
  intros Hin. apply list_elem_of_fmap in Hin as ([e h'] & -> & Hin).
  apply list_elem_of_filter in Hin as [_ Hin]. cbn in Hin.
  repeat (apply elem_of_cons in Hin as [[= _ ->]|Hin]; [tauto|]).
  by apply elem_of_nil in Hin.
Qed.

Lemma deliver_registered s (inbound : string) (h : Handler) :
  h ∈ deliver inbound s -> ~ unregistered h s.
Proof.
  unfold deliver, unregistered. destruct (socket s) as [k|]; intros Hin.
  - intros Hun. apply Hun.
    apply list_elem_of_fmap in Hin as (eh & -> & Hin).
    apply list_elem_of_filter in Hin as [_ Hin].
    by apply list_elem_of_fmap_2.
  - by apply elem_of_nil in Hin.
Qed.

Section LibraryOnlyRemoves.

(** What the library's [off] is taken to promise here: it adds no
    listener. *)
Hypothesis emitter_off_removes :
  forall event callback hs eh, eh ∈ emitter_off event callback hs -> eh ∈ hs.

Lemma unregistered_call (c : nat) s (o : Op) :
  (forall event, o <> On event (Callback c)) ->
  unregistered (Callback c) s -> unregistered (Callback c) (call emitter_off s o).
Proof.
  intros Ho. unfold unregistered.
  destruct o; cbn [call];
    unfold connect, authenticate, joinEventRoom, leaveEventRoom, emit, disconnect, on, off;
    destruct (socket s) as [k|] eqn:Hk; cbn; rewrite ?Hk; try done.
  - intros _ Hin.
    repeat (apply elem_of_cons in Hin as [Hin|Hin]; [discriminate Hin|]).
    by apply elem_of_nil in Hin.
  - intros Hun Hin. rewrite fmap_app in Hin.
    apply elem_of_app in Hin as [Hin|Hin]; [by apply Hun|].
    apply list_elem_of_singleton in Hin. cbn in Hin. subst callback.
    by apply (Ho event).
  - intros Hun Hin. apply Hun.
    apply list_elem_of_fmap in Hin as (eh & -> & Hin).
    apply list_elem_of_fmap_2. by eapply emitter_off_removes.
Qed.

Lemma unregistered_run (c : nat) ops s :
  Forall (fun o => forall event, o <> On event (Callback c)) ops ->
  unregistered (Callback c) s -> unregistered (Callback c) (run emitter_off ops s).
Proof.
  unfold run. intros Hops. revert s.
  induction Hops as [|o ops Ho _ IH]; intros s Hs; [exact Hs|].
  cbn [foldl]. by apply IH, unregistered_call.
Qed.

End LibraryOnlyRemoves.

(** C10. While the service holds no socket, which is so before the first
    [connect()] and after every [disconnect()], [on] and [off] return
    without doing anything: the service and the library state are the
    same afterwards, and nothing is thrown (both are guarded by
    [if (this.socket)]). The handler is recorded nowhere, so whatever is
    called later the service behaves as if [on] had not been called. No
    inbound event invokes the handler, neither right after a later
    [connect()] nor, as long as [off] of the library adds no listener,
    after any later calls that do not subscribe it anew. *)
Theorem subscribe_without_socket_is_noop
    (event : string) (callback : nat) (unsub : option Handler) s ops :
  socket s = None ->
  on event (Callback callback) s = s
  /\ off emitter_off event unsub s = s
  /\ run emitter_off ops (on event (Callback callback) s) = run emitter_off ops s
  /\ (forall inbound : string,
        deliver inbound (on event (Callback callback) s) = []
        /\ (Callback callback ∉
              deliver inbound (snd (connect (on event (Callback callback) s)))))
  /\ ((forall e cb hs eh, eh ∈ emitter_off e cb hs -> eh ∈ hs) ->
      Forall (fun o => forall e, o <> On e (Callback callback)) ops ->
      forall inbound : string,
        Callback callback ∉
          deliver inbound (run emitter_off ops (on event (Callback callback) s)))
  /\ socket initial = None
  /\ (forall s0, socket (disconnect s0) = None).
Proof.
  intros Hnone.
  assert (Hon : on event (Callback callback) s = s) by (unfold on; by rewrite Hnone).
  split; [exact Hon|]. split; [unfold off; by rewrite Hnone|].
  split; [by apply run_ext|]. split; [|split; [|split; [reflexivity|]]].
  - intros inbound. rewrite Hon. split.
    + unfold deliver. by rewrite Hnone.
    + intros Hin.
      destruct (deliver_after_first_connect _ _ _ Hnone Hin) as [H|[H|H]]; discriminate H.
  - intros Hlib Hops inbound Hin. rewrite Hon in Hin.
    apply deliver_registered in Hin. apply Hin.
    apply unregistered_run; [exact Hlib | exact Hops |].
    unfold unregistered. by rewrite Hnone.
  - intros s0. unfold disconnect. destruct (socket s0) eqn:H0; [reflexivity | exact H0].
Qed.

End SocketServiceFacts.

Lemma connect_idempotent_witness :
  SocketService.connect (snd (SocketService.connect SocketService.initial))
  = (fst (SocketService.connect SocketService.initial),
     snd (SocketService.connect SocketService.initial))
  /\ length (SocketService.live
               (SocketService.run Samples.drop_listeners
                  [SocketService.Connect; SocketService.Connect;
                   SocketService.Disconnect; SocketService.Connect]
                  SocketService.initial)) ≤ 1.
Proof.
  destruct (connect_idempotent Samples.drop_listeners
              (snd (SocketService.connect SocketService.initial))
              (fst (SocketService.connect SocketService.initial))
              [SocketService.Connect; SocketService.Connect;
               SocketService.Disconnect; SocketService.Connect])
    as (Hsame & _ & _ & _ & Hlive & _); [reflexivity|].
  split; [exact Hsame | exact Hlive].
Defined.

Lemma drop_listeners_removes (e : string) (cb : option SocketService.Handler)
    (hs : list (string * SocketService.Handler)) (eh : string * SocketService.Handler) :
  eh ∈ Samples.drop_listeners e cb hs -> eh ∈ hs.
Proof.
  unfold Samples.drop_listeners. rewrite !list_elem_of_In.
  intros Hin. by apply filter_In in Hin as [Hin _].
Qed.

Lemma subscribe_without_socket_is_noop_witness :
  let later := [SocketService.Connect;
                SocketService.On "seats_updated" (SocketService.Callback 2);
                SocketService.OffOp "seats_updated" None] in
  SocketService.on "new_event" (SocketService.Callback 1) SocketService.initial
  = SocketService.initial
  /\ (SocketService.Callback 1 ∉
        SocketService.deliver "new_event"
          (snd (SocketService.connect
                  (SocketService.on "new_event" (SocketService.Callback 1)
                     SocketService.initial))))
  /\ (SocketService.Callback 1 ∉
        SocketService.deliver "new_event"
          (SocketService.run Samples.drop_listeners later
             (SocketService.on "new_event" (SocketService.Callback 1)
                SocketService.initial))).
Proof.
  intros later.
  destruct (subscribe_without_socket_is_noop Samples.drop_listeners
              "new_event" 1 None SocketService.initial later)
    as (Hon & _ & _ & Hdeliver & Hlater & _); [reflexivity|].
  split; [exact Hon|]. split; [exact (proj2 (Hdeliver "new_event"))|].
  apply Hlater; [exact drop_listeners_removes|].
  repeat (apply Forall_cons; split; [intros e; discriminate|]).
  apply Forall_nil. exact I.
Defined.

(** ** Booking and payment *)

Section BookingFlowFacts.

Import BookingFlow.

Implicit Types (s : State) (event : Obj) (w : CheckoutForm.Outside).

Lemma act_without_session event (acc : State * list CheckoutForm.Call) (a : Action) :
  stage (fst acc) = SeatSelection ->
  stage (fst (act None event acc a)) = SeatSelection
  /\ snd (act None event acc a) = snd acc.
Proof.
  intros Hstage. unfold act. rewrite Hstage.
  destruct a; cbn; (split; [exact Hstage | reflexivity]).
Qed.

Lemma session_without_session event (actions : list Action)
    (acc : State * list CheckoutForm.Call) :
  stage (fst acc) = SeatSelection ->
  stage (fst (foldl (act None event) acc actions)) = SeatSelection
  /\ snd (foldl (act None event) acc actions) = snd acc.
Proof.
  revert acc. induction actions as [|a actions IH]; intros acc Hstage; [by split|].
  cbn [foldl]. destruct (act_without_session event acc a Hstage) as [Hst Hcalls].
  destruct (IH _ Hst) as [Hst' Hcalls']. split; [exact Hst' | congruence].
Qed.

(** C7. Without a session ([user] is [null]), [handleBooking] sets the
    card's error text and returns before [setShowPayment(true)]. From
    seat selection, whatever such a visitor does, the flow stays at seat
    selection: the payment form is not shown, no request is issued (the
    payment-intention request is made by the form's submit handler only),
    and the card shows the login prompt in place of the booking section. *)
Theorem booking_without_session_stays_at_seat_selection
    event s (actions : list Action) :
  stage s = SeatSelection ->
  EventCard.showPayment (EventCard.handleBooking None (card s)) = false
  /\ EventCard.error (EventCard.handleBooking None (card s)) = "Please login to book"
  /\ stage (book None s) = SeatSelection
  /\ stage (fst (session None event actions s)) = SeatSelection
  /\ snd (session None event actions s) = []
  /\ exists c,
       EventCard.render None event (card (fst (session None event actions s)))
       = EventCard.CardView c
       /\ EventCard.login_prompt c = Some "Please login to book this event"
       /\ EventCard.booking_section c = false.
Proof.
  intros Hstage.
  assert (Hshow : EventCard.showPayment (card s) = false).
  { unfold stage in Hstage. by destruct (EventCard.showPayment (card s)). }
  destruct (session_without_session event actions (s, []) Hstage) as [Hst Hcalls].
  split; [exact Hshow|]. split; [reflexivity|].
  split; [unfold stage; cbn; by rewrite Hshow|].
  split; [exact Hst|]. split; [exact Hcalls|].
  unfold session. unfold session in Hst.
  set (r := foldl (act None event) (s, []) actions) in *.
  unfold stage in Hst. unfold EventCard.render.
  destruct (EventCard.showPayment (card (fst r))); [discriminate Hst|].
  eexists. split; [reflexivity|]. split; reflexivity.
Qed.

Lemma booking_without_session_stays_at_seat_selection_witness :
  let s := {| card := EventCard.initial; form := CheckoutForm.initial |} in
  let attempts := [Book; ChangeSeats (Some 2%Z); Book; Pay Samples.declined] in
  stage (fst (session None Samples.event_1 attempts s)) = SeatSelection
  /\ snd (session None Samples.event_1 attempts s) = [].
Proof.
  intros s attempts.
  destruct (booking_without_session_stays_at_seat_selection
              Samples.event_1 s attempts) as (_ & _ & _ & Hst & Hcalls & _);
    [reflexivity|].
  split; [exact Hst | exact Hcalls].
Defined.

(** C6, as amended. When the widget's card confirmation resolves with an
    error, the form stores the processor's message as it is and shows it
    (a non-empty message), clears [processing], and has issued the
    intention request and the widget call only: no
    [POST /confirm-payment/{bookingId}], no [onSuccess], no alert. The
    card's state is untouched, so the payment form stays on screen, where
    the user can press Pay again or Cancel. *)
Theorem card_confirmation_failure_keeps_payment_form
    event s w (data : Obj) (message : string) :
  stage s = PaymentPending ->
  CheckoutForm.stripe_ready w = true ->
  CheckoutForm.create_payment_intent w = CheckoutForm.Resolved data ->
  CheckoutForm.confirm_card_payment w = CheckoutForm.Resolved (Some message) ->
  let s' := fst (fst (submit event w s)) in
  let calls := snd (fst (submit event w s)) in
  let effects := snd (submit event w s) in
  CheckoutForm.error (form s') = Some message
  /\ (truthy message = true -> CheckoutForm.error_message (form s') = Some message)
  /\ CheckoutForm.processing (form s') = false
  /\ calls = [ CheckoutForm.PostCreatePaymentIntent (prop event "id")
                 (EventCard.seats (card s));
               CheckoutForm.ConfirmCardPayment (prop data "client_secret") ]
  /\ (forall b, (CheckoutForm.PostConfirmPayment b ∉ calls)
                /\ (CheckoutForm.OnSuccess b ∉ calls))
  /\ effects = []
  /\ card s' = card s
  /\ stage s' = PaymentPending
  /\ (forall user, EventCard.render user event (card s')
                    = EventCard.PaymentFormView event (EventCard.seats (card s))).
Proof.
  intros Hstage Hready Hintent Hconfirm.
  unfold submit, CheckoutForm.handleSubmit.
  rewrite Hready, Hintent, Hconfirm. cbn.
  assert (Hshow : EventCard.showPayment (card s) = true).
  { unfold stage in Hstage. by destruct (EventCard.showPayment (card s)). }
  repeat split.
  - intros Htruthy. unfold CheckoutForm.error_message. cbn. by rewrite Htruthy.
  - intros Hin. repeat (apply elem_of_cons in Hin as [Hin|Hin]; [discriminate Hin|]).
    by apply elem_of_nil in Hin.
  - intros Hin. repeat (apply elem_of_cons in Hin as [Hin|Hin]; [discriminate Hin|]).
    by apply elem_of_nil in Hin.
  - exact Hstage.
  - intros user. unfold EventCard.render. by rewrite Hshow.
Qed.

Lemma card_confirmation_failure_keeps_payment_form_witness :
  let r := submit Samples.event_1 Samples.declined Samples.paying in
  CheckoutForm.error_message (form (fst (fst r))) = Some "Your card was declined."
  /\ stage (fst (fst r)) = PaymentPending
  /\ snd r = [].
Proof.
  intros r.
  destruct (card_confirmation_failure_keeps_payment_form
              Samples.event_1 Samples.paying Samples.declined
              Samples.intent "Your card was declined.")
    as (_ & Hshown & _ & _ & _ & Heffects & _ & Hstage & _);
    [reflexivity | reflexivity | reflexivity | reflexivity |].
  split; [apply Hshown; reflexivity|]. split; [exact Hstage | exact Heffects].
Defined.

(** C6 as it is worded does not hold: after the processor declines the
    card, the flow is not back at seat selection. The card still has
    [showPayment] set, and what is rendered is the payment form. *)
Lemma card_confirmation_failure_not_at_seat_selection :
  let s' := fst (fst (submit Samples.event_1 Samples.declined Samples.paying)) in
  stage Samples.paying = PaymentPending
  /\ stage s' <> SeatSelection
  /\ EventCard.render (Some Samples.ana) Samples.event_1 (card s')
     = EventCard.PaymentFormView Samples.event_1 (Some 1%Z).
Proof.
  vm_compute. split; [reflexivity|]. split; [discriminate | reflexivity].
Qed.

End BookingFlowFacts.

(** * Further properties *)

(** ** The events snapshot: how seat updates compose *)

Section EventsListMore.

Import EventsList.

Implicit Types (data eventData event : Obj) (prev : list Obj).

(** What [seats_updated] does to one entry. *)
Lemma seats_updated_cons data event prev :
  seats_updated data (event :: prev) =
  (if strict_eq (prop event "id") (prop data "event_id")
   then spread_with event "available_seats" (prop data "available_seats")
   else event) :: seats_updated data prev.
Proof. reflexivity. Qed.

Lemma spread_seats_keeps_id event (v : JsVal) :
  prop (spread_with event "available_seats" v) "id" = prop event "id".
Proof. unfold prop, spread_with. by rewrite lookup_insert_ne. Qed.

Lemma spread_seats_twice event (v1 v2 : JsVal) :
  spread_with (spread_with event "available_seats" v1) "available_seats" v2
  = spread_with event "available_seats" v2.
Proof. unfold spread_with. apply insert_insert_eq. Qed.

Lemma spread_seats_keeps_key event (v : JsVal) (k : string) :
  k <> "available_seats" ->
  spread_with event "available_seats" v !! k = event !! k.
Proof. intros Hk. unfold spread_with. by rewrite lookup_insert_ne. Qed.

(** X1. Of two seat updates naming the same event, the later one decides:
    applying both gives what the later one alone gives. *)
Theorem seats_updated_last_write_wins (first second : Obj) prev :
  prop first "event_id" = prop second "event_id" ->
  seats_updated second (seats_updated first prev) = seats_updated second prev.
Proof.
  intros Hsame. induction prev as [|event prev IH]; [reflexivity|].
  rewrite !seats_updated_cons, IH. f_equal.
  rewrite Hsame.
  destruct (strict_eq (prop event "id") (prop second "event_id")) eqn:Hm.
  - by rewrite spread_seats_keeps_id, Hm, spread_seats_twice.
  - by rewrite Hm.
Qed.

Lemma seats_updated_last_write_wins_witness :
  seats_updated Samples.seats_of_1 (seats_updated Samples.seats_of_1 Samples.fetched)
  = seats_updated Samples.seats_of_1 Samples.fetched.
Proof. apply seats_updated_last_write_wins. reflexivity. Defined.

(** X2. Seat updates naming different events can be applied in either
    order. *)
Theorem seats_updated_distinct_events_commute (a b : Obj) prev :
  prop a "event_id" <> prop b "event_id" ->
  seats_updated a (seats_updated b prev) = seats_updated b (seats_updated a prev).
Proof.
  intros Hdiff. induction prev as [|event prev IH]; [reflexivity|].
  rewrite !seats_updated_cons, IH. f_equal.
  destruct (strict_eq (prop event "id") (prop a "event_id")) eqn:Ha;
    destruct (strict_eq (prop event "id") (prop b "event_id")) eqn:Hb;
    rewrite ?spread_seats_keeps_id, ?Ha, ?Hb; try reflexivity.
  unfold strict_eq in Ha, Hb.
  apply bool_decide_eq_true in Ha, Hb. congruence.
Qed.

Lemma seats_updated_distinct_events_commute_witness :
  seats_updated Samples.seats_of_1 (seats_updated Samples.seats_of_9 Samples.fetched)
  = seats_updated Samples.seats_of_9 (seats_updated Samples.seats_of_1 Samples.fetched).
Proof.
  apply seats_updated_distinct_events_commute. vm_compute. discriminate.
Defined.

(** X3. As long as no fetch comes in, the snapshot's length is its length
    at the start plus the number of [new_event] pushes: seat updates never
    add or drop an entry, and nothing ever removes one. *)
Theorem snapshot_grows_by_new_events (inputs : list Input) prev :
  Forall (fun i => Notions.is_push i = true) inputs ->
  length (run inputs prev) =
  (length prev + length (filter (fun i => Notions.is_new_event i = true) inputs))%nat.
Proof.
  unfold run. intros Hpush. revert prev.
  induction Hpush as [|i inputs Hi _ IH]; intros prev; [cbn; lia|].
  cbn [foldl]. rewrite IH.
  destruct i as [d|e|d]; [discriminate Hi| |]; cbn [apply].
  - rewrite filter_cons_True by reflexivity. cbn. lia.
  - rewrite filter_cons_False by discriminate.
    rewrite seats_updated_length. lia.
Qed.

Lemma snapshot_grows_by_new_events_witness :
  length (run [NewEvent Samples.created_12; SeatsUpdated Samples.seats_of_1;
               NewEvent Samples.created_12] Samples.fetched) = 4%nat.
Proof.
  rewrite snapshot_grows_by_new_events; [reflexivity|].
  repeat (apply Forall_cons; split; [reflexivity|]). apply Forall_nil. exact I.
Defined.

(** X4. A fetch replaces the snapshot wholesale: what the list shows
    depends only on the last fetched collection and the pushes after it. *)
Theorem fetch_overrides_history (before after : list Input) (response_data prev : list Obj) :
  run (before ++ Fetched response_data :: after) prev = run after response_data.
Proof. unfold run. rewrite foldl_app. reflexivity. Qed.

(** X5. A burst of seat updates changes no identifier and no property
    other than [available_seats], at any position of the snapshot. *)
Theorem seat_updates_keep_other_properties (burst : list Obj) prev (k : string) :
  k <> "available_seats" ->
  (fun event => event !! k) <$> run (SeatsUpdated <$> burst) prev
  = (fun event => event !! k) <$> prev.
Proof.
  intros Hk. unfold run. revert prev.
  induction burst as [|data burst IH]; intros prev; [reflexivity|].
  cbn [fmap list_fmap foldl apply].
  change (foldl (fun acc i => apply i acc) (seats_updated data prev)
            (list_fmap _ _ SeatsUpdated burst))
    with (foldl (fun acc i => apply i acc) (seats_updated data prev)
            (SeatsUpdated <$> burst)).
  rewrite IH. clear IH.
  induction prev as [|event prev IHp]; [reflexivity|].
  rewrite seats_updated_cons. cbn [fmap list_fmap]. f_equal; [|exact IHp].
  destruct (strict_eq _ _); [by apply spread_seats_keeps_key | reflexivity].
Qed.

Lemma seat_updates_keep_other_properties_witness :
  (fun event : Obj => event !! "id")
    <$> run (SeatsUpdated <$> [Samples.seats_of_1; Samples.seats_of_9]) Samples.fetched
  = [Some (JNum 1); Some (JNum 7)].
Proof.
  rewrite seat_updates_keep_other_properties; [reflexivity | discriminate].
Defined.

End EventsListMore.

(** ** The notification list: order, stale removals, counter, timeouts *)

Section NotificationBarMore.

Import NotificationBar.

Implicit Types (s : Bar) (n : Notification) (tm : Timer) (i : Input)
  (trace : list (Z * Input)).



Lemma fired_onlineUsers (due_timers : list Timer) s :
  onlineUsers (foldl fire s due_timers) = onlineUsers s.
Proof.
  revert s. induction due_timers as [|tm rest IH]; intros s; [reflexivity|].
  cbn [foldl]. by rewrite IH.
Qed.







(** X7. Removing an identifier that is not displayed leaves the component
    as it is; this is what the timeout of a notification does that was
    already dismissed or pushed out by newer ones, and what a second
    removal of the same identifier does. *)
Theorem removing_absent_id_changes_nothing (k : Z) s :
  k ∉ id <$> notifications s ->
  removeNotification k s = s
  /\ (forall d, fire s {| due := d; target := k |} = s)
  /\ (forall s0, removeNotification k (removeNotification k s0) = removeNotification k s0).
Proof.
  intros Habsent.
  assert (Hsame : removeNotification k s = s).
  { destruct s as [l u ts c]. unfold removeNotification. cbn in *.
    f_equal. by apply filter_id_absent. }
  split; [exact Hsame|]. split; [intros d; exact Hsame|].
  intros s0. unfold removeNotification. cbn [notifications onlineUsers timers now].
  f_equal. rewrite list_filter_filter. apply list_filter_iff. tauto.
Qed.

Lemma removing_absent_id_changes_nothing_witness :
  removeNotification 999 (run Samples.one_booking initial)
  = run Samples.one_booking initial.
Proof.
  apply removing_absent_id_changes_nothing. vm_compute.
  intros Hin. repeat (apply elem_of_cons in Hin as [Hin|Hin]; [discriminate Hin|]).
  by apply elem_of_nil in Hin.
Defined.

Lemma handle_onlineUsers i s :
  Notions.is_users_online (0%Z, i) = false ->
  onlineUsers (handle i s) = onlineUsers s.
Proof. destruct i; cbn; intros H; (discriminate H || reflexivity). Qed.

Lemma advance_to_onlineUsers (t : Z) s : onlineUsers (advance_to t s) = onlineUsers s.
Proof. cbn [advance_to onlineUsers]. apply fired_onlineUsers. Qed.

Lemma run_keeps_onlineUsers trace s :
  Forall (fun ti => Notions.is_users_online ti = false) trace ->
  onlineUsers (run trace s) = onlineUsers s.
Proof.
  unfold run. intros Hnone. revert s.
  induction Hnone as [|[t i] trace Hti _ IH]; intros s; [reflexivity|].
  cbn [foldl]. rewrite IH. unfold step. cbn [fst snd].
  rewrite handle_onlineUsers by exact Hti. apply advance_to_onlineUsers.
Qed.

(** X8. The online counter shows the [count] of the last [users_online]
    push: notifications arriving, being clicked away or timing out
    afterwards do not touch it. *)
Theorem online_counter_is_last_reported
    (before after : list (Z * Input)) (t : Z) (data : Obj) s :
  Forall (fun ti => Notions.is_users_online ti = false) after ->
  onlineUsers (run (before ++ (t, UsersOnline data) :: after) s) = prop data "count"
  /\ forall t', onlineUsers (advance_to t'
                   (run (before ++ (t, UsersOnline data) :: after) s))
                = prop data "count".
Proof.
  intros Hafter.
  assert (Hrun : onlineUsers (run (before ++ (t, UsersOnline data) :: after) s)
                 = prop data "count").
  { unfold run. rewrite foldl_app. cbn [foldl].
    change (foldl step ?x after) with (run after x).
    rewrite run_keeps_onlineUsers by exact Hafter. reflexivity. }
  split; [exact Hrun|]. intros t'. by rewrite advance_to_onlineUsers.
Qed.

Lemma online_counter_is_last_reported_witness :
  onlineUsers (run (Samples.one_booking
                      ++ (1000%Z, UsersOnline {[ "count" := JNum 4 ]})
                      :: [(1001%Z, NewEvent Samples.created_12); (1002%Z, Click 1000)])
                 initial)
  = prop {[ "count" := JNum 4 ]} "count".
Proof.
  apply online_counter_is_last_reported.
  repeat (apply Forall_cons; split; [reflexivity|]). apply Forall_nil. exact I.
Defined.

Lemma now_step s (ti : Z * Input) : (now s <= now (step s ti))%Z.
Proof.
  unfold step. destruct (snd ti); cbn; lia.
Qed.

Lemma now_run trace s : (now s <= now (run trace s))%Z.
Proof.
  unfold run. revert s. induction trace as [|ti trace IH]; intros s; [cbn; lia|].
  cbn [foldl]. etrans; [apply now_step | apply IH].
Qed.

Lemma timers_handle i s tm : tm ∈ timers s -> tm ∈ timers (handle i s).
Proof.
  destruct i; cbn; try done; intros Hin; apply elem_of_app; by left.
Qed.

Lemma timers_step s (ti : Z * Input) tm :
  tm ∈ timers s -> (now (step s ti) < due tm)%Z -> tm ∈ timers (step s ti).
Proof.
  intros Hin Hdue. unfold step in *. apply timers_handle.
  assert (Hnow : now (handle (snd ti) (advance_to (fst ti) s))
                 = Z.max (now s) (fst ti)) by (destruct (snd ti); reflexivity).
  rewrite Hnow in Hdue.
  cbn [advance_to timers]. apply list_elem_of_filter. split; [|exact Hin].
  unfold is_due. lia.
Qed.

(** X9. No timeout is ever cancelled: a pending timeout stays pending,
    through any pushes and clicks, for as long as the clock has not
    reached its due time. *)
Theorem pending_timeout_stays_until_due trace s tm :
  tm ∈ timers s ->
  (now (run trace s) < due tm)%Z ->
  tm ∈ timers (run trace s).
Proof.
  unfold run. revert s. induction trace as [|ti trace IH]; intros s Hin Hdue.
  - exact Hin.
  - cbn [foldl] in *. apply IH; [|exact Hdue].
    apply timers_step; [exact Hin|].
    pose proof (now_run trace (step s ti)) as Hmono. unfold run in Hmono. lia.
Qed.

Lemma pending_timeout_stays_until_due_witness :
  {| due := 6000; target := 1000 |}
    ∈ timers (run [(2000%Z, Click 1000); (5999%Z, NewEvent Samples.created_12)]
                (run Samples.one_booking initial)).
Proof.
  apply pending_timeout_stays_until_due.
  - vm_compute. apply elem_of_cons. by left.
  - vm_compute. reflexivity.
Defined.

End NotificationBarMore.

(** ** The connection manager: reconnecting, emitting, subscribing *)

Section SocketServiceMore.

Import SocketService.

Variable emitter_off :
  string -> option Handler -> list (string * Handler) -> list (string * Handler).

Implicit Types (s : State) (k : Socket) (ops : list Op).

Lemma disconnect_socket s : socket (disconnect s) = None.
Proof. unfold disconnect. destruct (socket s) eqn:Hs; [reflexivity | exact Hs]. Qed.

(** X10. [disconnect()] followed by [connect()] gives a new socket that
    has the three logging listeners and nothing else: no handler that was
    subscribed through [on] before is invoked by an inbound event
    afterwards. *)
Theorem reconnect_drops_subscriptions s (inbound : string) (c : nat) :
  handlers (fst (connect (disconnect s)))
  = [("connect", LogConnected); ("disconnect", LogDisconnected); ("error", LogError)]
  /\ Callback c ∉ deliver inbound (snd (connect (disconnect s))).
Proof.
  pose proof (disconnect_socket s) as Hnone. split.
  - unfold connect. by rewrite Hnone.
  - intros Hin.
    destruct (deliver_after_first_connect emitter_off _ _ _ Hnone Hin) as [H|[H|H]]; discriminate H.
Qed.

Lemma emit_without_socket (name : string) (payload : Obj) s :
  socket s = None -> emit name payload s = s.
Proof. intros Hnone. unfold emit. by rewrite Hnone. Qed.

(** X11. Announcements made while the service holds no socket are dropped,
    not queued: [authenticate], [joinEventRoom] and [leaveEventRoom] leave
    everything as it is, and a later [connect()] sends nothing on their
    behalf. *)
Theorem announcement_without_socket_is_dropped (v : JsVal) s ops :
  socket s = None ->
  authenticate v s = s
  /\ joinEventRoom v s = s
  /\ leaveEventRoom v s = s
  /\ run emitter_off ops (authenticate v s) = run emitter_off ops s
  /\ sent (snd (connect (authenticate v s))) = sent s.
Proof.
  intros Hnone.
  assert (Hauth : authenticate v s = s) by (by apply emit_without_socket).
  split; [exact Hauth|].
  split; [by apply emit_without_socket|]. split; [by apply emit_without_socket|].
  rewrite Hauth. split; [reflexivity|].
  unfold connect. by rewrite Hnone.
Qed.

(** X12. With a socket, a handler subscribed for an event is invoked by
    that event after all handlers subscribed for it earlier, and
    subscribing for one event changes nothing for the others. *)
Theorem subscribed_handler_is_delivered_last
    (event : string) (callback : Handler) s k :
  socket s = Some k ->
  deliver event (on event callback s) = deliver event s ++ [callback]
  /\ forall other : string,
       other <> event -> deliver other (on event callback s) = deliver other s.
Proof.
  intros Hk. unfold deliver, on. rewrite Hk. cbn [socket socket_on handlers].
  split.
  - rewrite filter_app, fmap_app. f_equal.
    by rewrite filter_cons_True by reflexivity.
  - intros other Hother. rewrite filter_app.
    rewrite (filter_cons_False _ (event, callback)) by (cbn; congruence).
    rewrite filter_nil. by rewrite app_nil_r.
Qed.

Lemma subscribed_handler_is_delivered_last_witness :
  deliver "new_event"
    (on "new_event" (Callback 2)
       (on "new_event" (Callback 1) (snd (connect initial))))
  = [Callback 1; Callback 2].
Proof.
  destruct (subscribed_handler_is_delivered_last
              "new_event" (Callback 2)
              (on "new_event" (Callback 1) (snd (connect initial)))
              (socket_on "new_event" (Callback 1) (fst (connect initial))))
    as [Hlast _]; [reflexivity|].
  rewrite Hlast. reflexivity.
Defined.

(** X13. After [disconnect()], whatever was called on the singleton
    before, no underlying connection is open, the service holds no
    socket and no inbound event reaches a handler; a second
    [disconnect()] does nothing. *)
Theorem disconnect_leaves_nothing_open ops (inbound : string) :
  let s := disconnect (run emitter_off ops initial) in
  live s = []
  /\ socket s = None
  /\ deliver inbound s = []
  /\ disconnect s = s.
Proof.
  intros s.
  assert (Hone : one_connection s).
  { apply (one_connection_call emitter_off _ Disconnect), one_connection_run.
    reflexivity. }
  assert (Hnone : socket s = None) by apply disconnect_socket.
  unfold one_connection in Hone. rewrite Hnone in Hone.
  split; [exact Hone|]. split; [exact Hnone|].
  unfold deliver, disconnect. by rewrite Hnone.
Qed.

(** X14. The [listeners] field set up by the constructor is never
    written by any method. *)
Theorem listeners_field_is_never_written ops s :
  listeners (run emitter_off ops s) = listeners s.
Proof.
  unfold run. revert s. induction ops as [|o ops IH]; intros s; [reflexivity|].
  cbn [foldl]. rewrite IH.
  destruct o; cbn [call];
    unfold connect, authenticate, joinEventRoom, leaveEventRoom, emit, disconnect, on, off;
    destruct (socket s); reflexivity.
Qed.

End SocketServiceMore.

Lemma announcement_without_socket_is_dropped_witness :
  SocketService.sent
    (snd (SocketService.connect
            (SocketService.authenticate (JStr "ana") SocketService.initial))) = [].
Proof.
  apply (announcement_without_socket_is_dropped Samples.drop_listeners
           (JStr "ana") SocketService.initial []).
  reflexivity.
Defined.

(** ** The payment form: order of calls and outcomes *)

Section CheckoutFormMore.

Import CheckoutForm.

Implicit Types (event : Obj) (seats : option Z) (w : Outside) (s : State).

(** The ways a submission can go, read off [handleSubmit]. *)
Lemma handleSubmit_cases event seats w s :
  (stripe_ready w = false /\ handleSubmit event seats w s = (s, []))
  \/ (stripe_ready w = true /\
      ((exists detail,
          create_payment_intent w = Rejected detail
          /\ handleSubmit event seats w s
             = (caught detail, take 1 (Notions.full_sequence event seats ∅)))
       \/ (exists data,
             create_payment_intent w = Resolved data
             /\ ((exists detail,
                    confirm_card_payment w = Rejected detail
                    /\ handleSubmit event seats w s
                       = (caught detail, take 2 (Notions.full_sequence event seats data)))
                 \/ (exists message,
                       confirm_card_payment w = Resolved (Some message)
                       /\ handleSubmit event seats w s
                          = ({| error := Some message; processing := false |},
                             take 2 (Notions.full_sequence event seats data)))
                 \/ (confirm_card_payment w = Resolved None
                     /\ ((exists detail,
                            confirm_payment w = Rejected detail
                            /\ handleSubmit event seats w s
                               = (caught detail,
                                  take 3 (Notions.full_sequence event seats data)))
                         \/ (exists u,
                               confirm_payment w = Resolved u
                               /\ handleSubmit event seats w s
                                  = ({| error := None; processing := false |},
                                     Notions.full_sequence event seats data)))))))).
Proof.
  unfold handleSubmit.
  destruct (stripe_ready w); [right; split; [reflexivity|] | left; by split].
  destruct (create_payment_intent w) as [data|detail]; [right; exists data | left; by exists detail].
  split; [reflexivity|].
  destruct (confirm_card_payment w) as [[message|]|detail].
  - right; left. by exists message.
  - right; right. split; [reflexivity|].
    destruct (confirm_payment w) as [u|detail]; [right; by exists u | left; by exists detail].
  - left. by exists detail.
Qed.

Lemma caught_error_truthy (detail : option string) :
  exists m, error (caught detail) = Some m /\ truthy m = true.
Proof.
  unfold caught. cbn [error].
  destruct detail as [d|]; [destruct (truthy d) eqn:Hd|]; eexists; split;
    try reflexivity; exact Hd.
Qed.

Ltac submit_cases event seats w s :=
  destruct (handleSubmit_cases event seats w s)
    as [[Hready Hrun]
       |[Hready [(detail & Hintent & Hrun)
                |(data & Hintent &
                  [(detail & Hcard & Hrun)
                  |[(message & Hcard & Hrun)
                   |(Hcard & [(detail & Hback & Hrun)|(u & Hback & Hrun)])]])]]].

Ltac not_among_calls H :=
  repeat (apply elem_of_cons in H as [H|H]; [discriminate H|]);
  try (by apply elem_of_nil in H).

(** X15. [onSuccess] is called only at the end of a submission in which
    the intention was created, the widget confirmed the card without an
    error and the backend accepted [POST /confirm-payment/{bookingId}];
    it is passed the [booking_id] of the intention, and it is the last of
    the four calls. *)
Theorem on_success_only_after_backend_confirmation event seats w s (b : JsVal) :
  OnSuccess b ∈ snd (handleSubmit event seats w s) ->
  Notions.succeeds w = true
  /\ exists data,
       create_payment_intent w = Resolved data
       /\ b = prop data "booking_id"
       /\ snd (handleSubmit event seats w s) = Notions.full_sequence event seats data
       /\ last (snd (handleSubmit event seats w s)) = Some (OnSuccess b).
Proof.
  intros Hin. unfold Notions.succeeds.
  submit_cases event seats w s; rewrite Hrun in *; cbn [snd] in *;
    try (cbn in Hin; not_among_calls Hin).
  rewrite Hready, Hintent, Hcard, Hback.
  split; [reflexivity|]. exists data.
  unfold Notions.full_sequence in Hin.
  repeat (apply elem_of_cons in Hin as [Hin|Hin]; [try discriminate Hin|]).
  - injection Hin as ->. by repeat split.
  - by apply elem_of_nil in Hin.
Qed.

Lemma on_success_only_after_backend_confirmation_witness :
  Notions.succeeds
    {| stripe_ready := true;
       create_payment_intent := Resolved Samples.intent;
       confirm_card_payment := Resolved None;
       confirm_payment := Resolved tt |} = true.
Proof.
  apply (on_success_only_after_backend_confirmation
           Samples.event_1 (Some 1%Z) _ initial (JNum 55)).
  vm_compute. apply list_elem_of_lookup. by exists 3%nat.
Defined.

(** X16. The calls of a submission are an initial part of the sequence
    intention request, widget confirmation, backend confirmation,
    [onSuccess]: no step is taken before the one in front of it, and none
    is taken at all while the widget is not loaded. *)
Theorem submission_calls_follow_the_sequence event seats w s :
  (exists data,
     snd (handleSubmit event seats w s) `prefix_of` Notions.full_sequence event seats data)
  /\ (snd (handleSubmit event seats w s) = [] <-> stripe_ready w = false).
Proof.
  submit_cases event seats w s; rewrite Hrun; cbn [snd]; rewrite Hready.
  all: split; [|split; (discriminate || reflexivity)].
  - exists ∅. apply prefix_nil.
  - exists ∅. apply prefix_take.
  - exists data. apply prefix_take.
  - exists data. apply prefix_take.
  - exists data. apply prefix_take.
  - by exists data.
Qed.

(** X17. A submission made with the widget loaded always ends with
    [processing] cleared, and it ends without an error message exactly
    when all three awaited steps went well, which is exactly when
    [onSuccess] was called. *)
Theorem submission_ends_idle event seats w s :
  stripe_ready w = true ->
  processing (fst (handleSubmit event seats w s)) = false
  /\ (error (fst (handleSubmit event seats w s)) = None <-> Notions.succeeds w = true)
  /\ (Notions.succeeds w = true <->
      exists b, OnSuccess b ∈ snd (handleSubmit event seats w s)).
Proof.
  intros Hr. unfold Notions.succeeds.
  submit_cases event seats w s; [congruence|..];
    rewrite Hrun; cbn [fst snd]; rewrite Hready, Hintent; cbn [andb];
    try rewrite Hcard; try rewrite Hback; cbn [andb].
  all: split; [reflexivity|].
  all: try (split; [split; discriminate|];
            split; [discriminate|]; intros [b Hin]; cbn in Hin; not_among_calls Hin).
  split; [by split|]. split; [|reflexivity].
  intros _. eexists. unfold Notions.full_sequence.
  apply list_elem_of_lookup. by exists 3%nat.
Qed.

Lemma submission_ends_idle_witness :
  processing (fst (handleSubmit Samples.event_1 (Some 1%Z) Samples.declined initial)) = false.
Proof. apply submission_ends_idle. reflexivity. Defined.



(** *** The form inside the card *)

(** X19. When the widget has confirmed the card but the backend rejects
    the confirmation, the form's [error] state is set to a truthy value,
    [onSuccess] is not called, nothing is alerted or refetched and the
    payment form stays open, although the widget call went out and
    resolved without an error. *)
Theorem backend_rejection_after_card_confirmation
    event w (s : BookingFlow.State) (data : Obj) (detail : option string) :
  BookingFlow.stage s = BookingFlow.PaymentPending ->
  stripe_ready w = true ->
  create_payment_intent w = Resolved data ->
  confirm_card_payment w = Resolved None ->
  confirm_payment w = Rejected detail ->
  let r := BookingFlow.submit event w s in
  snd (fst r) = take 3 (Notions.full_sequence event (EventCard.seats (BookingFlow.card s)) data)
  /\ snd r = []
  /\ BookingFlow.stage (fst (fst r)) = BookingFlow.PaymentPending
  /\ exists m, error (BookingFlow.form (fst (fst r))) = Some m /\ truthy m = true.
Proof.
  intros Hstage Hr Hi Hc Hb r. subst r.
  unfold BookingFlow.submit, handleSubmit. rewrite Hr, Hi, Hc, Hb. cbn.
  split; [reflexivity|]. split; [reflexivity|]. split; [exact Hstage|].
  apply caught_error_truthy.
Qed.

Lemma backend_rejection_after_card_confirmation_witness :
  let r := BookingFlow.submit Samples.event_1 Samples.charged_unconfirmed Samples.paying in
  BookingFlow.stage (fst (fst r)) = BookingFlow.PaymentPending
  /\ snd r = [].
Proof.
  intros r.
  destruct (backend_rejection_after_card_confirmation
              Samples.event_1 Samples.charged_unconfirmed Samples.paying
              Samples.intent (Some "Booking not found"))
    as (_ & Heffects & Hstage & _); try reflexivity.
  split; [exact Hstage | exact Heffects].
Defined.

(** X20. A submission in which every step goes well closes the payment
    form: the card is back at seat selection with its seat count kept,
    the user is alerted with the booking id, and the list is asked to
    refetch, in this order. *)
Theorem successful_payment_returns_to_the_card event w (s : BookingFlow.State) :
  Notions.succeeds w = true ->
  let r := BookingFlow.submit event w s in
  exists data,
    create_payment_intent w = Resolved data
    /\ snd (fst r)
       = Notions.full_sequence event (EventCard.seats (BookingFlow.card s)) data
    /\ snd r = [ EventCard.Alert ("Payment successful! Booking ID: "
                                  +:+ template (prop data "booking_id"));
                 EventCard.OnBooked ]
    /\ BookingFlow.stage (fst (fst r)) = BookingFlow.SeatSelection
    /\ EventCard.seats (BookingFlow.card (fst (fst r))) = EventCard.seats (BookingFlow.card s)
    /\ error (BookingFlow.form (fst (fst r))) = None.
Proof.
  intros Hok r. subst r. unfold Notions.succeeds in Hok.
  unfold BookingFlow.submit, handleSubmit.
  destruct (stripe_ready w); [|discriminate Hok].
  destruct (create_payment_intent w) as [data|]; [|discriminate Hok].
  destruct (confirm_card_payment w) as [[m|]|]; try discriminate Hok.
  destruct (confirm_payment w) as [u|]; [|discriminate Hok].
  exists data. cbn. by repeat split.
Qed.

Lemma successful_payment_returns_to_the_card_witness :
  BookingFlow.stage
    (fst (fst (BookingFlow.submit Samples.event_1 Samples.accepted Samples.paying)))
  = BookingFlow.SeatSelection.
Proof.
  destruct (successful_payment_returns_to_the_card
              Samples.event_1 Samples.accepted Samples.paying)
    as (data & _ & _ & _ & Hstage & _); [reflexivity|].
  exact Hstage.
Defined.

(** X21. While the payment form is open, one action takes the user back
    to the card exactly when it is Cancel, or Pay with every step going
    well; a failed payment, of whatever kind, leaves the form open. *)
Theorem payment_form_closes_on_cancel_or_success
    (user : option Obj) event (s : BookingFlow.State) (log : list Call)
    (a : BookingFlow.Action) :
  BookingFlow.stage s = BookingFlow.PaymentPending ->
  BookingFlow.stage (fst (BookingFlow.act user event (s, log) a)) = BookingFlow.SeatSelection
  <-> a = BookingFlow.Cancel
      \/ exists w, a = BookingFlow.Pay w /\ Notions.succeeds w = true.
Proof.
  intros Hstage. unfold BookingFlow.act. cbn [fst snd]. rewrite Hstage.
  assert (Hshow : EventCard.showPayment (BookingFlow.card s) = true).
  { unfold BookingFlow.stage in Hstage.
    by destruct (EventCard.showPayment (BookingFlow.card s)). }
  destruct a as [|parsed|w|]; cbn [fst].
  - rewrite Hstage. split; [discriminate|]. intros [H|(w & H & _)]; discriminate H.
  - rewrite Hstage. split; [discriminate|]. intros [H|(w & H & _)]; discriminate H.
  - unfold BookingFlow.submit.
    submit_cases event (EventCard.seats (BookingFlow.card s)) w (BookingFlow.form s);
      rewrite Hrun; cbn [fst snd];
      unfold BookingFlow.stage; cbn; rewrite ?Hshow.
    all: try (split; [discriminate|]; intros [H|(w' & H & Hs)]; [discriminate H|];
              injection H as <-; unfold Notions.succeeds in Hs;
              rewrite ?Hready, ?Hintent in Hs; cbn [andb] in Hs;
              rewrite ?Hcard in Hs; cbn [andb] in Hs;
              rewrite ?Hback in Hs; discriminate Hs).
    split; [|reflexivity]. intros _. right. exists w. split; [reflexivity|].
    unfold Notions.succeeds. by rewrite Hready, Hintent, Hcard, Hback.
  - split; [by left | reflexivity].
Qed.

Lemma payment_form_closes_on_cancel_or_success_witness :
  BookingFlow.stage
    (fst (BookingFlow.act (Some Samples.ana) Samples.event_1
            (Samples.paying, []) (BookingFlow.Pay Samples.accepted)))
  = BookingFlow.SeatSelection.
Proof.
  apply payment_form_closes_on_cancel_or_success; [reflexivity|].
  right. exists Samples.accepted. split; reflexivity.
Defined.

End CheckoutFormMore.

(** ** The event card: which blocks can be on screen together *)

Section EventCardMore.

Import EventCard.

(** X22. On the card, the blocks below the details fit together: SOLD
    OUT is never shown next to the booking section, the booking section
    is shown to a logged-in user only, the error text appears only inside
    the booking section and is the non-empty [error] state, and the login
    prompt is shown exactly when there is no session. *)
Theorem card_blocks_fit_together (user : option Obj) (event : Obj) (s : State) (c : Card) :
  render user event s = CardView c ->
  (sold_out c = true -> booking_section c = false)
  /\ (booking_section c = true -> is_Some user)
  /\ (is_Some (error_text c) ->
      booking_section c = true /\ error_text c = Some (error s) /\ error s <> "")
  /\ (login_prompt c = None <-> is_Some user).
Proof.
  unfold render. destruct (showPayment s); [discriminate|].
  intros [= <-]. cbn [sold_out booking_section error_text login_prompt].
  split; [|split; [|split; [|split]]].
  - unfold strict_eq. intros Hsold. apply bool_decide_eq_true in Hsold.
    rewrite Hsold. cbn. apply andb_false_r.
  - intros Hsec. apply andb_true_iff in Hsec as [Hu _].
    by apply bool_decide_eq_true in Hu.
  - destruct (_ && gt_zero _); cbn; [|intros [x Hx]; discriminate Hx].
    destruct (truthy (error s)) eqn:Ht; [|intros [x Hx]; discriminate Hx].
    intros _. split; [reflexivity|]. split; [reflexivity|].
    intros Hempty. rewrite Hempty in Ht. discriminate Ht.
  - destruct user; [intros _; by eexists | discriminate].
  - intros [u ->]. reflexivity.
Qed.

Lemma card_blocks_fit_together_witness :
  exists c,
    render (Some Samples.ana) Samples.event_7 initial = CardView c
    /\ sold_out c = true /\ booking_section c = false.
Proof.
  eexists. split; [reflexivity|]. split; [reflexivity|].
  eapply (card_blocks_fit_together (Some Samples.ana) Samples.event_7 initial);
    reflexivity.
Defined.

End EventCardMore.

(** ** The page: what is shown to whom *)

Section AppContentMore.

Import AppContent.

(** X23. The parts of the page that belong to a session (notification
    bar, tabs, My Bookings) are rendered only when a user is set; the
    events list and My Bookings are never rendered together, nor are the
    hero and the auth form; while the auth form is shown the events list
    is not; and while loading nothing but the loading line is rendered. *)
Theorem session_parts_need_a_user (user : option Obj) (loading : bool) (s : State) :
  let r := render user loading s in
  (notification_bar r = true \/ tabs r = true \/ my_bookings r = true -> is_Some user)
  /\ events_list r && my_bookings r = false
  /\ hero r && auth_form r = false
  /\ (auth_form r = true -> user = None /\ events_list r = false)
  /\ (loading = true ->
      navigation r = false /\ notification_bar r = false /\ tabs r = false
      /\ hero r = false /\ auth_form r = false /\ events_list r = false
      /\ my_bookings r = false).
Proof.
  unfold render. destruct loading; cbn.
  - repeat split; try discriminate. intros [H|[H|H]]; discriminate H.
  - destruct user as [u|]; destruct (showAuth s), (showBookings s); cbn;
      repeat split; try discriminate; try (by eexists);
      intros [H|[H|H]]; discriminate H.
Qed.

Lemma session_parts_need_a_user_witness :
  is_Some (Some Samples.ana).
Proof.
  apply (session_parts_need_a_user (Some Samples.ana) false
           {| showAuth := false; showBookings := true |}).
  right. right. reflexivity.
Defined.

Lemma press_without_user_keeps_tab (s : State) (c : Click) :
  showBookings (press None false s c) = showBookings s.
Proof.
  unfold press, offered, render. destruct c; cbn;
    destruct (showAuth s); reflexivity.
Qed.

(** X24. [showBookings] outlives the session. Once it is set and the user
    is gone (a logout on the My Bookings tab), the page renders neither
    the events list nor My Bookings, and no button that is on the page
    for a visitor brings the events list back. *)
Theorem events_list_hidden_after_logout_on_bookings_tab (s : State) (cs : list Click) :
  showBookings s = true ->
  let s' := presses None false cs s in
  showBookings s' = true
  /\ events_list (render None false s') = false
  /\ my_bookings (render None false s') = false
  /\ tabs (render None false s') = false.
Proof.
  intros Hset s'.
  assert (Hkept : showBookings s' = true).
  { subst s'. unfold presses. revert s Hset.
    induction cs as [|c cs IH]; intros s Hset; [exact Hset|].
    cbn [foldl]. apply IH. by rewrite press_without_user_keeps_tab. }
  split; [exact Hkept|]. unfold render. cbn. rewrite Hkept.
  repeat split. apply andb_false_r.
Qed.

Lemma events_list_hidden_after_logout_on_bookings_tab_witness :
  let s := presses (Some Samples.ana) false [BookingsTab] initial in
  events_list (render None false (presses None false [GetStarted; AuthSucceeded] s)) = false.
Proof.
  intros s.
  apply (events_list_hidden_after_logout_on_bookings_tab s [GetStarted; AuthSucceeded]).
  reflexivity.
Defined.

End AppContentMore.

(** ** The login / register form *)

Section AuthFormMore.

Import AuthForm.

Implicit Types (w : Outside) (s : State).

(** X25. [onSuccess] is called exactly when the login resolved, after a
    resolved registration in register mode. A rejected registration is
    not followed by a login attempt. Whenever a login is attempted, it is
    with the form's [username] and [password]; in login mode nothing is
    registered. The form is never left in the loading state. *)
Theorem auth_form_succeeds_only_after_login w s :
  let r := handleSubmit w s in
  (OnSuccess ∈ snd r <->
   Notions.resolved (login w) = true
   /\ (isLogin s = true \/ Notions.resolved (register w) = true))
  /\ loading (fst r) = false
  /\ (isLogin s = false -> Notions.resolved (register w) = false ->
      snd r = [Register (formData s)])
  /\ (forall u p, Login u p ∈ snd r ->
        u = prop (formData s) "username" /\ p = prop (formData s) "password")
  /\ (isLogin s = true -> forall d, Register d ∉ snd r).
Proof.
  unfold handleSubmit.
  destruct (isLogin s), (register w) as [?|dr], (login w) as [?|dl];
    cbn [fst snd Notions.resolved caught finished loading].
  all: split; [split; [intros Hin|intros [Hl Hr]]|].
  all: try (repeat (apply elem_of_cons in Hin as [Hin|Hin]; [discriminate Hin|]);
            by apply elem_of_nil in Hin).
  all: try discriminate Hl.
  all: try (destruct Hr as [Hr|Hr]; discriminate Hr).
  all: try (split; [reflexivity|by left]).
  all: try (split; [reflexivity|by right]).
  all: try (apply list_elem_of_lookup; (by exists 1%nat) || (by exists 2%nat)).
  all: split; [reflexivity|].
  all: split; [intros H1 H2; (discriminate H1 || discriminate H2 || reflexivity)|].
  all: split; [|intros H1; try discriminate H1; intros d Hin;
                 repeat (apply elem_of_cons in Hin as [Hin|Hin]; [discriminate Hin|]);
                 by apply elem_of_nil in Hin].
  all: intros u p Hin;
    repeat (apply elem_of_cons in Hin as [Hin|Hin];
            [first [discriminate Hin | injection Hin as -> ->; by split]|]);
    by apply elem_of_nil in Hin.
Qed.

Lemma auth_form_succeeds_only_after_login_witness :
  snd (handleSubmit {| register := CheckoutForm.Rejected (Some "Username already registered");
                       login := CheckoutForm.Resolved tt |} Samples.signing_up)
  = [Register (formData Samples.signing_up)].
Proof.
  apply auth_form_succeeds_only_after_login; reflexivity.
Defined.

End AuthFormMore.

(** ** The session provider: where the token lives *)

Section AuthProviderMore.

Import AuthProvider.

Implicit Types (s : State) (x : Step) (steps : list Step).

Lemma consistent_init (item : option string) : consistent (init item).
Proof.
  split; cbn.
  - destruct item; [by right | by left].
  - discriminate.
Qed.

Lemma consistent_logout s : consistent (logout s).
Proof. split; cbn; [by left | discriminate]. Qed.

Lemma truthy_val_not_null (v : JsVal) : truthy_val v = true -> v <> JNull.
Proof. intros H ->. discriminate H. Qed.

Lemma consistent_step s x : consistent s -> consistent (step s x).
Proof.
  intros [Htok Hhdr]. destruct x as [data|[data|d]|u| | |]; cbn [step].
  - split; cbn; [by right|]. intros h [= <-]. by eexists.
  - split; cbn; assumption.
  - split; cbn; [by left | discriminate].
  - split; cbn; assumption.
  - unfold effect. destruct (truthy_val (token s)) eqn:Ht; split; cbn; try assumption.
    intros h [= <-]. destruct Htok as [[Hnull _]|Hst].
    + by apply truthy_val_not_null in Ht.
    + by eexists.
  - split; cbn; assumption.
  - apply consistent_logout.
Qed.

Lemma consistent_run steps s : consistent s -> consistent (run steps s).
Proof.
  unfold run. revert s. induction steps as [|x steps IH]; intros s Hs; [exact Hs|].
  cbn [foldl]. by apply IH, consistent_step.
Qed.

(** X26. However the pieces of [login], [fetchUser], [logout] and the
    token effect interleave, starting from whatever [localStorage] held:
    the token in the provider's state is the one in [localStorage], and
    the [Authorization] header, when present, is [Bearer] followed by the
    token in [localStorage]; so no request goes out with a token that has
    been removed or replaced. *)
Theorem authorization_header_matches_stored_token steps (item : option string) :
  consistent (run steps (init item)).
Proof. apply consistent_run, consistent_init. Qed.

(** X27. After [logout], and likewise after a failed [GET /me], no
    credential is left in the state, in [localStorage] or in the header,
    whatever happened before; the effect that then runs for the changed
    token sets no header and ends the loading state. *)
Theorem logout_and_failed_fetch_clear_credentials
    steps (item : option string) (x : Step) :
  x = Logout \/ (exists detail, x = MeSettled (CheckoutForm.Rejected detail)) ->
  let s := run (steps ++ [x]) (init item) in
  user s = None /\ token s = JNull /\ stored s = None /\ authorization s = None
  /\ authorization (effect s) = None /\ loading (effect s) = false.
Proof.
  intros Hx s. subst s. unfold run. rewrite foldl_app. cbn [foldl].
  destruct Hx as [->|[detail ->]]; cbn; by repeat split.
Qed.

Lemma logout_and_failed_fetch_clear_credentials_witness :
  stored (run ([Effect; TokenReceived {[ "access_token" := JStr "abc" ]}; Cleanup; Effect]
               ++ [Logout]) (init None)) = None.
Proof.
  apply (logout_and_failed_fetch_clear_credentials
           [Effect; TokenReceived {[ "access_token" := JStr "abc" ]}; Cleanup; Effect]
           None Logout).
  by left.
Defined.

Lemma one_connection_step s x :
  SocketService.one_connection (socket s) ->
  SocketService.one_connection (socket (step s x)).
Proof.
  intros Hone.
  destruct x as [data|[data|d]|u| | |]; cbn [step]; try exact Hone.
  - apply (one_connection_call (fun _ _ hs => hs) _
             (SocketService.Authenticate (prop data "username")) Hone).
  - apply (one_connection_call (fun _ _ hs => hs) _ (SocketService.Authenticate u) Hone).
  - unfold effect. destruct (truthy_val (token s)); cbn [socket];
      apply (one_connection_call (fun _ _ hs => hs) _ SocketService.Connect Hone).
  - apply (one_connection_call (fun _ _ hs => hs) _ SocketService.Disconnect Hone).
Qed.

(** X28. The provider opens and closes the socket as the token changes;
    in whatever order effect runs, cleanups, logins and logouts come, at
    most one underlying connection is open. *)
Theorem provider_keeps_at_most_one_connection steps (item : option string) :
  length (SocketService.live (socket (run steps (init item)))) ≤ 1.
Proof.
  apply one_connection_length.
  unfold run. generalize (init item), (eq_refl : SocketService.one_connection
                                                   (socket (init item))).
  induction steps as [|x steps IH]; intros s Hs; [exact Hs|].
  cbn [foldl]. by apply IH, one_connection_step.
Qed.

End AuthProviderMore.

(** ** The notification list on the page *)

Section NotificationListFacts.

Import NotificationList.

Implicit Types (p : Page) (trace : list (Z * NotificationBar.Input)).

(** The page model runs the component's code: its [bar] is the state the
    component model computes. *)
Lemma bar_fired (due_timers : list NotificationBar.Timer) p :
  bar (foldl fire p due_timers) = foldl NotificationBar.fire (bar p) due_timers.
Proof.
  revert p. induction due_timers as [|tm rest IH]; intros p; [reflexivity|].
  cbn [foldl]. by rewrite IH.
Qed.

Lemma bar_advance_to (t : Z) p :
  bar (advance_to t p) = NotificationBar.advance_to t (bar p).
Proof.
  unfold advance_to, NotificationBar.advance_to. cbn [bar].
  by rewrite bar_fired.
Qed.

Lemma bar_run trace p : bar (run trace p) = NotificationBar.run trace (bar p).
Proof.
  unfold run, NotificationBar.run. revert p.
  induction trace as [|ti trace IH]; intros p; [reflexivity|].
  cbn [foldl]. rewrite IH. f_equal.
  unfold step, NotificationBar.step, handle. cbn [bar]. by rewrite bar_advance_to.
Qed.

(** With pairwise distinct keys among the old children the map loses
    none of them, and no node is left behind. *)
Lemma lost_from_map_distinct {A} (key : A -> Z) (oldFibers : list A) :
  NoDup (key <$> oldFibers) -> Reconciler.lost_from_map key oldFibers = [].
Proof.
  induction oldFibers as [|o rest IH]; [reflexivity|].
  cbn [fmap list_fmap Reconciler.lost_from_map]. intros Hnd.
  apply NoDup_cons in Hnd as [Hnotin Hnd].
  rewrite bool_decide_eq_false_2 by exact Hnotin. by apply IH.
Qed.

Lemma walk_suffix {A} (key : A -> Z) (oldFibers newChildren : list A) :
  fst (Reconciler.walk key oldFibers newChildren) `suffix_of` oldFibers.
Proof.
  revert newChildren. induction oldFibers as [|o rest IH]; intros newChildren.
  - by destruct newChildren.
  - destruct newChildren as [|n newChildren']; [reflexivity|].
    cbn [Reconciler.walk]. case_bool_decide; [|reflexivity].
    apply suffix_cons_r, IH.
Qed.

Lemma left_behind_distinct {A} (key : A -> Z) (oldFibers newChildren : list A) :
  NoDup (key <$> oldFibers) -> Reconciler.left_behind key oldFibers newChildren = [].
Proof.
  intros Hnd. unfold Reconciler.left_behind.
  pose proof (walk_suffix key oldFibers newChildren) as Hsuffix.
  destruct (Reconciler.walk key oldFibers newChildren) as [old' new'].
  cbn [fst] in Hsuffix.
  destruct new' as [|n new'], old' as [|o rest]; try reflexivity.
  apply lost_from_map_distinct.
  destruct Hsuffix as [front ->]. rewrite fmap_app in Hnd.
  by apply NoDup_app in Hnd as (_ & _ & Hnd).
Qed.

(** C4 at an input where it fails. Eight pushes, seven of them adding a
    notification, arrive within two milliseconds, so the notifications
    share two identifiers, which are also their React keys. The state array is cut to five entries, but
    four renders leave a node of an old child with a repeated key behind:
    nine notifications are on the page. *)
Theorem burst_puts_nine_notifications_on_screen :
  let p := run Samples.burst initial in
  length (NotificationBar.notifications (bar p)) = 5%nat
  /\ NotificationBar.id <$> NotificationBar.notifications (bar p)
     = [1001%Z; 1001%Z; 1001%Z; 1001%Z; 1001%Z]
  /\ length (stale p) = 4%nat
  /\ length (on_screen p) = 9%nat.
Proof. vm_compute. repeat split. Qed.

(** C5 at an input where it fails. The same burst, looked at twenty
    seconds later: every timeout has run and the state array is empty,
    but the nodes left behind are still on the page. They show the
    [seats_updated] notification that was added at clock reading 1000,
    long after 1000 + 5000. *)
Theorem expired_notification_stays_on_screen :
  let n := NotificationBar.seats_notification Samples.seats_of_1
             (NotificationBar.advance_to 1000 NotificationBar.initial) in
  let p := advance_to 20000 (run Samples.burst initial) in
  NotificationBar.id n = 1000%Z
  /\ NotificationBar.notifications (bar p) = []
  /\ NotificationBar.timers (bar p) = []
  /\ on_screen p = [n; n; n; n].
Proof. vm_compute. repeat split. Qed.

End NotificationListFacts.
